(** * pygrep: a shallow embedding of [pygrep.py]

    The four formatters, the formatter factory, the scanning loop
    [PatternMatcher._print_matches], the stdin reader and [main] are
    translated function by function.  Python's [re] module and the file
    system are outside the program: they are the variables of the sections
    [Re] and [Main].

    A Python [str] is a list of characters; characters are the code points
    below 256.  A match object is represented by the pair returned by its
    [span()] method; group 0 always took part in the match, so both indices
    are natural numbers. *)

From Stdlib Require Import Ascii String DecimalString.
From Stdlib Require Import ZArith Arith Lia Bool List.
Import ListNotations.

Open Scope list_scope.

(** ** Python strings *)

Definition str := list ascii.
Definition span := (nat * nat)%type.

(** A literal. *)
Definition lit (s : string) : str := list_ascii_of_string s.

Definition newline : ascii := ascii_of_nat 10.
Definition dquote : ascii := ascii_of_nat 34.
Definition escape : ascii := ascii_of_nat 27.
Definition space : ascii := " "%char.
Definition colon : ascii := ":"%char.

(** [line[a:b]] for indices that are not negative: the slice is empty when
    [b <= a] and is clipped at the end of the string. *)
Definition slice (line : str) (a b : nat) : str := firstn (b - a) (skipn a line).

(** [line[a:]] *)
Definition slice_from (line : str) (a : nat) : str := skipn a line.

(** [s[:-1]]: everything but the last character, empty for the empty string. *)
Definition but_last (s : str) : str := removelast s.

(** [' ' * n] *)
Definition spaces (n : nat) : str := repeat space n.

(** [str(n)] and [f'{n}'] for an int. *)
Definition str_of_int (n : Z) : str := lit (NilZero.string_of_int (Z.to_int n)).

(** [len(s) > 0] *)
Definition nonempty (s : str) : bool := 0 <? length s.

Definition str_eqb (a b : str) : bool :=
  if list_eq_dec ascii_dec a b then true else false.

(** ** The formatters *)

Module UnderlineFormatter.

Definition ansi_caret : ascii := "^"%char.

(** One iteration of the loop over the matches; the state is
    [(caret_string, start_index)]. *)
Definition step (line : str) (st : str * nat) (m : span) : str * nat :=
  let '(caret_string, start_index) := st in
  let '(match_start_index, match_end_index) := m in
  let substring_before_match := slice line start_index match_start_index in
  let match_string_caret := slice line match_start_index match_end_index in
  (caret_string ++ spaces (length substring_before_match) ++ [ansi_caret]
     ++ spaces (length (but_last match_string_caret)),
   match_end_index).

Definition loop (line : str) (matches : list span) : str * nat :=
  fold_left (step line) matches ([], 0).

(** The caret row as it stands when the output is assembled: the loop's
    [caret_string], padded under the rest of the line. *)
Definition caret_row (matches : list span) (line : str) : str :=
  let '(caret_string, start_index) := loop line matches in
  caret_string ++ spaces (length (slice_from line start_index)).

Definition format_string (matches : list span) (file_name : str)
    (line_number : Z) (line : str) : str :=
  let '(caret_string, _) := loop line matches in
  if nonempty caret_string then
    (file_name ++ [space] ++ str_of_int line_number ++ [space] ++ line)
      ++ (spaces (length file_name) ++ [space]
            ++ spaces (length (str_of_int line_number)) ++ [space]
            ++ caret_row matches line ++ [newline])
  else [].

End UnderlineFormatter.

Module StandardFormatter.

Definition format_string (matches : list span) (file_name : str)
    (line_number : Z) (line : str) : str :=
  let matches_list := matches in
  if 0 <? length matches_list then
    file_name ++ [space] ++ str_of_int line_number ++ [space] ++ line
  else [].

End StandardFormatter.

Module MachineFormatter.

Definition format_string (matches : list span) (file_name : str)
    (line_number : Z) (line : str) : str :=
  let matches_list := matches in
  if 0 <? length matches_list then
    match matches_list with
    | first_match :: _ =>
        let '(start_index, end_index) := first_match in
        file_name ++ [colon] ++ str_of_int line_number ++ [colon]
          ++ str_of_int (Z.of_nat start_index) ++ [colon]
          ++ slice line start_index end_index ++ [newline]
    | [] => []
    end
  else [].

End MachineFormatter.

Module ColorFormatter.

Definition ansi_red : str := escape :: lit "[31m".
Definition ansi_reset : str := escape :: lit "[0m".

(** One iteration of the loop; the state is [(colored_line, start_index)]. *)
Definition step (line : str) (st : str * nat) (m : span) : str * nat :=
  let '(colored_line, start_index) := st in
  let '(match_start_index, match_end_index) := m in
  let substring_before_match := slice line start_index match_start_index in
  let match_string_colored :=
    ansi_red ++ slice line match_start_index match_end_index ++ ansi_reset in
  (colored_line ++ substring_before_match ++ match_string_colored,
   match_end_index).

Definition loop (line : str) (matches : list span) : str * nat :=
  fold_left (step line) matches ([], 0).

(** [colored_line] once the rest of the line has been appended. *)
Definition colored (matches : list span) (line : str) : str :=
  let '(colored_line, start_index) := loop line matches in
  colored_line ++ slice_from line start_index.

Definition format_string (matches : list span) (file_name : str)
    (line_number : Z) (line : str) : str :=
  let '(colored_line, _) := loop line matches in
  if nonempty colored_line then
    file_name ++ [space] ++ str_of_int line_number ++ [space]
      ++ colored matches line
  else [].

End ColorFormatter.

(** The interface [IFormatter] has exactly these four implementations. *)
Inductive IFormatter : Set :=
  | Standard
  | Color
  | Machine
  | Underline.

Definition format_string (formatter : IFormatter) :
    list span -> str -> Z -> str -> str :=
  match formatter with
  | Standard => StandardFormatter.format_string
  | Color => ColorFormatter.format_string
  | Machine => MachineFormatter.format_string
  | Underline => UnderlineFormatter.format_string
  end.

(** ** The formatter factory *)

(** What a call can raise. *)
Inductive exn : Type :=
  | SystemExit (code : Z)
  | ValueError (msg : str)
  | OSError (file_name : str).

Inductive result (A : Type) : Type :=
  | Ok (a : A)
  | Raise (e : exn).

Arguments Ok {A} a.
Arguments Raise {A} e.

Module FormatterFactory.

Definition COLOR : str := lit "color".
Definition MACHINE : str := lit "machine".
Definition UNDERLINE : str := lit "underline".
Definition STANDARD : str := lit "standard".

Definition get_formatter (format_style : option str) : result IFormatter :=
  let requested style :=
    match format_style with
    | Some s => str_eqb s style
    | None => false
    end in
  if requested STANDARD then Ok Standard
  else if requested COLOR then Ok Color
  else if requested MACHINE then Ok Machine
  else if requested UNDERLINE then Ok Underline
  else Raise (ValueError
    (lit "format_style must be one of: 'standard', 'color', 'machine', 'underline'")).

End FormatterFactory.

(** ** Effects: what a run does to the outside

    A computation yields the events it caused, in order, and either a value
    or the exception that ended it.  The events are the calls of
    [re.compile] and the texts written to standard output. *)

Inductive event : Type :=
  | Compile (regex : str)
  | Output (text : str).

Definition M (A : Type) : Type := (list event * result A)%type.

Definition ret {A} (a : A) : M A := ([], Ok a).

Definition bind {A B} (m : M A) (f : A -> M B) : M B :=
  match snd m with
  | Ok a => (fst m ++ fst (f a), snd (f a))
  | Raise e => (fst m, Raise e)
  end.

Definition raise {A} (e : exn) : M A := ([], Raise e).
Definition emit (ev : event) : M unit := ([ev], Ok tt).
Definition lift {A} (r : result A) : M A := ([], r).

Notation "x <- m ;; k" := (bind m (fun x => k))
  (at level 61, m at next level, right associativity).
Notation "m ;;; k" := (bind m (fun _ => k))
  (at level 61, right associativity).

(** [print(s)] and [print(s, end='')] *)
Definition print (s : str) : M unit := emit (Output (s ++ [newline])).
Definition print_end (s : str) : M unit := emit (Output s).

(** Everything written to standard output. *)
Definition stdout (t : list event) : str :=
  flat_map (fun ev => match ev with Output text => text | Compile _ => [] end) t.

(** The pattern strings handed to [re.compile], one per call. *)
Definition compiles (t : list event) : list str :=
  flat_map (fun ev => match ev with Compile regex => [regex] | Output _ => [] end) t.

(** The exit status of the process: 0 when [main] returns, the code of a
    [SystemExit], 1 for any other uncaught exception. *)
Definition exit_code (r : result unit) : Z :=
  match r with
  | Ok _ => 0
  | Raise (SystemExit code) => code
  | Raise _ => 1
  end.

(** ** Reading standard input *)

(** [c.isspace()] on the code points below 256. *)
Definition isspace (c : ascii) : bool :=
  let n := nat_of_ascii c in
  ((9 <=? n) && (n <=? 13)) || ((28 <=? n) && (n <=? 32))
  || (n =? 133) || (n =? 160).

Fixpoint lstrip (s : str) : str :=
  match s with
  | [] => []
  | c :: rest => if isspace c then lstrip rest else s
  end.

(** [s.rstrip()]: all trailing whitespace goes. *)
Definition rstrip (s : str) : str := rev (lstrip (rev s)).

(** The loop of [read_from_stdin]; [stdin_lines] is the list built so far. *)
Fixpoint read_loop (stdin_lines : list str) (stdin : list str) : list str :=
  match stdin with
  | [] => stdin_lines
  | line :: rest =>
      if str_eqb (lit "q") (rstrip line) then stdin_lines
      else read_loop (stdin_lines ++ [line]) rest
  end.

Definition read_from_stdin (stdin : list str) : list str := read_loop [] stdin.

(** ** The pattern matcher *)

Module PatternMatcher.

Section Re.

(** Python's [re]: compiled patterns, [re.compile] (a pattern or the text
    of the [re.error]) and [pattern.finditer] as the list of its spans. *)
Variable Pattern : Type.
Variable re_compile : str -> Pattern + str.
Variable finditer : Pattern -> str -> list span.

(** The file system: the lines iterating over the opened file gives, or
    nothing when [open] fails. *)
Variable fs : str -> option (list str).

(** The [for] loop of [_print_matches]; [line_number] is the number
    [enumerate] gives to the first of [lines]. *)
Fixpoint scan (pattern : Pattern) (formatter : IFormatter) (file_name : str)
    (line_number : Z) (lines : list str) : M unit :=
  match lines with
  | [] => ret tt
  | line :: rest =>
      let matches := finditer pattern line in
      let formatted_line :=
        format_string formatter matches file_name line_number line in
      (if nonempty formatted_line then print_end formatted_line else ret tt) ;;;
      scan pattern formatter file_name (line_number + 1) rest
  end.

Definition _print_matches (regex : str) (formatter : IFormatter)
    (iterable : list str) (file_name : str) : M unit :=
  let raw_regex_string := regex in
  pattern <- (emit (Compile raw_regex_string) ;;;
              match re_compile raw_regex_string with
              | inl pattern => ret pattern
              | inr ex =>
                  print (lit "Bad regex, " ++ ex ++ lit ", regex: "
                           ++ [dquote] ++ raw_regex_string ++ [dquote]) ;;;
                  raise (SystemExit 1)
              end) ;;
  scan pattern formatter file_name 1 iterable.

Fixpoint print_matches_from_files (regex : str) (formatter : IFormatter)
    (files_list : list str) : M unit :=
  match files_list with
  | [] => ret tt
  | file_name :: rest =>
      match fs file_name with
      | Some f => _print_matches regex formatter f file_name
      | None => raise (OSError file_name)
      end ;;;
      print_matches_from_files regex formatter rest
  end.

Definition print_matches_from_strings (regex : str) (formatter : IFormatter)
    (strings_list : list str) : M unit :=
  _print_matches regex formatter strings_list (lit "STDIN").

(** The text a scan of [lines] is expected to write: the formatted lines
    one after the other, an empty one adding nothing. *)
Fixpoint rendered (pattern : Pattern) (formatter : IFormatter)
    (file_name : str) (line_number : Z) (lines : list str) : str :=
  match lines with
  | [] => []
  | line :: rest =>
      format_string formatter (finditer pattern line) file_name line_number line
        ++ rendered pattern formatter file_name (line_number + 1) rest
  end.

(** Every named file can be opened. *)
Definition readable (files_list : list str) : Prop :=
  Forall (fun file_name => fs file_name <> None) files_list.

(** The lines of a file, none when it cannot be opened. *)
Definition lines_of (file_name : str) : list str :=
  match fs file_name with
  | Some f => f
  | None => []
  end.

End Re.

(** What [_print_matches] prints for a pattern that does not compile,
    [ex] being the text of the [re.error]. *)
Definition diagnostic (regex ex : str) : str :=
  lit "Bad regex, " ++ ex ++ lit ", regex: " ++ [dquote] ++ regex ++ [dquote].

End PatternMatcher.

(** ** The command line and [main] *)

(** What [parse_args] returns.  [files] is absent or, the option taking
    one argument at least, a list that is not empty. *)
Record Namespace : Type := {
  regex : str;
  files : option (list str);
  underline : bool;
  color : bool;
  machine : bool
}.

Definition format_style_of (args : Namespace) : str :=
  if color args then FormatterFactory.COLOR
  else if machine args then FormatterFactory.MACHINE
  else if underline args then FormatterFactory.UNDERLINE
  else FormatterFactory.STANDARD.

(** The formatter [main] ends up with. *)
Definition formatter_of (args : Namespace) : IFormatter :=
  if color args then Color
  else if machine args then Machine
  else if underline args then Underline
  else Standard.

Section Main.

Variable Pattern : Type.
Variable re_compile : str -> Pattern + str.
Variable finditer : Pattern -> str -> list span.
Variable fs : str -> option (list str).

Definition main (args : Namespace) (stdin : list str) : M unit :=
  let format_style := format_style_of args in
  formatter <- lift (FormatterFactory.get_formatter (Some format_style)) ;;
  match files args with
  | Some files_list =>
      PatternMatcher.print_matches_from_files Pattern re_compile finditer fs
        (regex args) formatter files_list
  | None =>
      let stdin_input_list := read_from_stdin stdin in
      PatternMatcher.print_matches_from_strings Pattern re_compile finditer
        (regex args) formatter stdin_input_list
  end.

(** The files named on the command line, if any, can all be opened. *)
Definition files_open (args : Namespace) : Prop :=
  match files args with
  | Some files_list => PatternMatcher.readable fs files_list
  | None => True
  end.

(** The run gets as far as compiling the pattern: it reads standard
    input, or the first of the files it was given can be opened. *)
Definition first_file_opens (args : Namespace) : Prop :=
  match files args with
  | Some (file_name :: _) => fs file_name <> None
  | Some [] => False
  | None => True
  end.

End Main.

(** ** Vocabulary of the properties *)

(** [s.startswith(p)] and [sub in s]. *)
Fixpoint startswith (p s : str) : bool :=
  match p, s with
  | [], _ => true
  | _ :: _, [] => false
  | a :: p', b :: s' => Ascii.eqb a b && startswith p' s'
  end.

Fixpoint occurs (sub s : str) : bool :=
  startswith sub s
  || match s with
     | [] => false
     | _ :: rest => occurs sub rest
     end.

(** [s.removeprefix(p)] *)
Definition removeprefix (p s : str) : str :=
  if startswith p s then skipn (length p) s else s.

(** Removing every occurrence of the two colour control sequences, in one
    pass from the left; [skip] characters of an occurrence are still to be
    dropped. *)
Fixpoint strip_from (skip : nat) (s : str) : str :=
  match s with
  | [] => []
  | c :: rest =>
      match skip with
      | S k => strip_from k rest
      | 0 =>
          if startswith ColorFormatter.ansi_red s
          then strip_from (length ColorFormatter.ansi_red - 1) rest
          else if startswith ColorFormatter.ansi_reset s
          then strip_from (length ColorFormatter.ansi_reset - 1) rest
          else c :: strip_from 0 rest
      end
  end.

Definition strip_color (s : str) : str := strip_from 0 s.

(** The next character does not continue a control sequence. *)
Definition breaks (k : str) : Prop :=
  forall c k', k = c :: k' ->
    ~ In c (tl ColorFormatter.ansi_red) /\ ~ In c (tl ColorFormatter.ansi_reset).

(** The physical lines of a text, each with its newline when it has one. *)
Fixpoint physical_lines (s : str) : list str :=
  match s with
  | [] => []
  | c :: rest =>
      if Ascii.eqb c newline then [c] :: physical_lines rest
      else match physical_lines rest with
           | [] => [[c]]
           | l :: ls => (c :: l) :: ls
           end
  end.

Definition no_newline (s : str) : bool :=
  forallb (fun c => negb (Ascii.eqb c newline)) s.

(** Spans in the order [finditer] yields them: each starts at or after
    [start], where the one before ended, and none ends before it starts. *)
Fixpoint ordered (start : nat) (matches : list span) : bool :=
  match matches with
  | [] => true
  | (s, e) :: rest => (start <=? s) && (s <=? e) && ordered e rest
  end.

(** Every span ends inside a line of [n] characters. *)
Definition within (n : nat) (matches : list span) : bool :=
  forallb (fun m : span => snd m <=? n) matches.



(** Both loops over the matches append one piece per span and move
    [start_index] to the end of the span.  [pieces] is what they have
    appended after a list of spans, [last_end] where they stand. *)
Section Pieces.

Variable piece : nat -> span -> str.

Definition pieces_step (st : str * nat) (m : span) : str * nat :=
  (fst st ++ piece (snd st) m, snd m).

Fixpoint pieces (start : nat) (matches : list span) : str :=
  match matches with
  | [] => []
  | m :: rest => piece start m ++ pieces (snd m) rest
  end.

Fixpoint last_end (start : nat) (matches : list span) : nat :=
  match matches with
  | [] => start
  | m :: rest => last_end (snd m) rest
  end.

End Pieces.

Definition underline_piece (line : str) (start : nat) (m : span) : str :=
  spaces (length (slice line start (fst m))) ++ [UnderlineFormatter.ansi_caret]
    ++ spaces (length (but_last (slice line (fst m) (snd m)))).

Definition color_piece (line : str) (start : nat) (m : span) : str :=
  slice line start (fst m)
    ++ ColorFormatter.ansi_red ++ slice line (fst m) (snd m)
    ++ ColorFormatter.ansi_reset.

(** The sentinel test read off the documentation: only the line terminator
    is trimmed before the comparison with [q]. *)
Definition trim_terminator (line : str) : str :=
  match rev line with
  | c :: rest => if Ascii.eqb c newline then rev rest else line
  | [] => line
  end.

Definition is_sentinel_documented (line : str) : bool :=
  str_eqb (lit "q") (trim_terminator line).

Fixpoint read_documented (stdin : list str) : list str :=
  match stdin with
  | [] => []
  | line :: rest =>
      if is_sentinel_documented line then [] else line :: read_documented rest
  end.

(** The style name [FormatterFactory] knows a formatter by. *)
Definition style_name (formatter : IFormatter) : str :=
  match formatter with
  | Standard => FormatterFactory.STANDARD
  | Color => FormatterFactory.COLOR
  | Machine => FormatterFactory.MACHINE
  | Underline => FormatterFactory.UNDERLINE
  end.

(** How many of the matches are empty. *)
Definition empty_matches (matches : list span) : nat :=
  length (filter (fun m : span => fst m =? snd m) matches).

(** Only whitespace. *)
Definition blank (s : str) : bool := forallb isspace s.

(** The lines a run scans: those of the named files, one file after the
    other, or those read from standard input. *)
Definition input_lines (fs : str -> option (list str)) (args : Namespace)
    (stdin : list str) : list str :=
  match files args with
  | Some files_list => flat_map (PatternMatcher.lines_of fs) files_list
  | None => read_from_stdin stdin
  end.

(** ** A small stand-in for [re], to run the program on examples

    A pattern is a literal text; the empty pattern matches the empty string
    at every position; a pattern with an opening parenthesis is rejected. *)

Module ToyRe.

Definition Pattern : Type := str.

Definition re_compile (regex : str) : Pattern + str :=
  if existsb (Ascii.eqb "("%char) regex
  then inr (lit "missing ), unterminated subpattern at position 0")
  else inl regex.

Fixpoint find_at (p : str) (pos skip : nat) (line : str) : list span :=
  match line with
  | [] => []
  | _ :: rest =>
      match skip with
      | S k => find_at p (S pos) k rest
      | 0 =>
          if startswith p line
          then (pos, pos + length p) :: find_at p (S pos) (length p - 1) rest
          else find_at p (S pos) 0 rest
      end
  end.

Definition finditer (p : Pattern) (line : str) : list span :=
  match p with
  | [] => map (fun i => (i, i)) (seq 0 (S (length line)))
  | _ :: _ => find_at p 0 0 line
  end.

(** Two files: [a.txt] holds three lines, the second of them [q];
    [b.txt] holds one line without a terminator. *)
Definition fs (file_name : str) : option (list str) :=
  if str_eqb file_name (lit "a.txt")
  then Some [lit "foo" ++ [newline]; lit "q" ++ [newline]; lit "quux foo" ++ [newline]]
  else if str_eqb file_name (lit "b.txt")
  then Some [lit "foofoo"]
  else None.

Definition main := main Pattern re_compile finditer fs.

End ToyRe.

(** ** Smoke tests on the scenarios of the documentation *)

Example standard_foobar :
  format_string Standard [(0, 3)] (lit "STDIN") 1 (lit "foobar" ++ [newline])
  = lit "STDIN 1 foobar" ++ [newline].
Proof. reflexivity. Qed.

Example machine_foobar :
  format_string Machine [(1, 3)] (lit "STDIN") 1 (lit "foobar" ++ [newline])
  = lit "STDIN:1:1:oo" ++ [newline].
Proof. reflexivity. Qed.

Example underline_foobar :
  format_string Underline [(3, 6)] (lit "STDIN") 1 (lit "foobar" ++ [newline])
  = (lit "STDIN 1 foobar" ++ [newline]) ++ (lit "           ^   " ++ [newline]).
Proof. reflexivity. Qed.

Example color_foobar :
  format_string Color [(3, 6)] (lit "STDIN") 1 (lit "foobar" ++ [newline])
  = lit "STDIN 1 foo" ++ ColorFormatter.ansi_red ++ lit "bar"
      ++ ColorFormatter.ansi_reset ++ [newline].
Proof. reflexivity. Qed.

Example toy_stdin_run :
  ToyRe.main {| regex := lit "o"; files := None;
                underline := false; color := false; machine := true |}
    [lit "foobar" ++ [newline]; lit "xyz" ++ [newline]; lit "q" ++ [newline];
     lit "oops" ++ [newline]]
  = ([Compile (lit "o"); Output (lit "STDIN:1:1:o" ++ [newline])], Ok tt).
Proof. reflexivity. Qed.

Example toy_file_run :
  stdout (fst (ToyRe.main
    {| regex := lit "q"; files := Some [lit "a.txt"];
       underline := false; color := false; machine := false |} []))
  = lit "a.txt 2 q" ++ [newline] ++ lit "a.txt 3 quux foo" ++ [newline].
Proof. reflexivity. Qed.

(** * Properties *)

(** ** Slices *)

Lemma slice_length (line : str) (a b : nat) :
  a <= b -> b <= length line -> length (slice line a b) = b - a.
Proof.
  intros Hab Hb. unfold slice.
  rewrite length_firstn, length_skipn. lia.
Qed.

Lemma slice_from_split (line : str) (a b : nat) :
  a <= b -> slice line a b ++ slice_from line b = slice_from line a.
Proof.
  intros Hab. unfold slice, slice_from.
  replace (skipn b line) with (skipn (b - a) (skipn a line)).
  - apply firstn_skipn.
  - rewrite skipn_skipn. f_equal. lia.
Qed.

Lemma but_last_length (s : str) : length (but_last s) = length s - 1.
Proof.
  unfold but_last. rewrite removelast_firstn_len, length_firstn. lia.
Qed.

(** ** The loops as lists of pieces *)

Lemma fold_pieces (piece : nat -> span -> str) (matches : list span) :
  forall acc start,
    fold_left (pieces_step piece) matches (acc, start)
    = (acc ++ pieces piece start matches, last_end start matches).
Proof.
  induction matches as [|m rest IH]; intros acc start; simpl.
  - now rewrite app_nil_r.
  - unfold pieces_step at 2. simpl. rewrite IH. now rewrite <- app_assoc.
Qed.

Lemma fold_left_pointwise {A B} (f g : A -> B -> A) (l : list B) :
  (forall a b, f a b = g a b) -> forall a, fold_left f l a = fold_left g l a.
Proof.
  intros Hfg. induction l as [|b l IH]; intros a; simpl.
  - reflexivity.
  - now rewrite Hfg, IH.
Qed.

Lemma underline_loop (line : str) (matches : list span) :
  UnderlineFormatter.loop line matches
  = (pieces (underline_piece line) 0 matches, last_end 0 matches).
Proof.
  unfold UnderlineFormatter.loop.
  rewrite (fold_left_pointwise _ (pieces_step (underline_piece line))).
  - now rewrite fold_pieces.
  - intros [caret_string start_index] [s e]. reflexivity.
Qed.

Lemma color_loop (line : str) (matches : list span) :
  ColorFormatter.loop line matches
  = (pieces (color_piece line) 0 matches, last_end 0 matches).
Proof.
  unfold ColorFormatter.loop.
  rewrite (fold_left_pointwise _ (pieces_step (color_piece line))).
  - now rewrite fold_pieces.
  - intros [colored_line start_index] [s e]. reflexivity.
Qed.

Lemma nonempty_true (s : str) : s <> [] -> nonempty s = true.
Proof.
  destruct s; [congruence|]. reflexivity.
Qed.

(** ** No match, no output *)

(** C1: whatever the formatter, the file name, the line number and the
    line, an empty sequence of matches is formatted as the empty string. *)
Theorem no_match_no_output (formatter : IFormatter) (file_name : str)
    (line_number : Z) (line : str) :
  format_string formatter [] file_name line_number line = [].
Proof.
  destruct formatter; reflexivity.
Qed.

(** ** The machine format *)

(** C2: with at least one match the machine formatter returns
    [file_name:line_number:start:substring] and a newline, where [start]
    and [substring] are those of the first match; the matches after the
    first change nothing. *)
Theorem machine_first_match (first_match : span) (others : list span)
    (file_name : str) (line_number : Z) (line : str) :
  MachineFormatter.format_string (first_match :: others) file_name line_number line
  = file_name ++ [colon] ++ str_of_int line_number ++ [colon]
      ++ str_of_int (Z.of_nat (fst first_match)) ++ [colon]
      ++ slice line (fst first_match) (snd first_match) ++ [newline]
  /\ forall others',
       MachineFormatter.format_string (first_match :: others) file_name line_number line
       = MachineFormatter.format_string (first_match :: others') file_name line_number line.
Proof.
  destruct first_match as [start_index end_index]. split; reflexivity.
Qed.

(** ** The colour format *)

Lemma color_pieces_length (line : str) (matches : list span) :
  forall start,
    length (ColorFormatter.ansi_red ++ ColorFormatter.ansi_reset) * length matches
    <= length (pieces (color_piece line) start matches).
Proof.
  induction matches as [|[s e] rest IH]; intros start.
  - simpl. lia.
  - cbn [pieces length]. specialize (IH e).
    unfold color_piece at 1. cbn [fst snd].
    rewrite !length_app in *. cbn [snd]. lia.
Qed.

Lemma color_loop_nonempty (line : str) (matches : list span) :
  matches <> [] -> nonempty (fst (ColorFormatter.loop line matches)) = true.
Proof.
  intros Hne. apply nonempty_true. intros Heq.
  pose proof (color_pieces_length line matches 0) as Hlen.
  rewrite color_loop in Heq. cbn [fst] in Heq. rewrite Heq in Hlen.
  destruct matches; [congruence|]. simpl in Hlen. lia.
Qed.

(** The shape of what the colour formatter returns for a matching line. *)
Lemma color_layout (matches : list span) (file_name : str)
    (line_number : Z) (line : str) :
  matches <> [] ->
  ColorFormatter.format_string matches file_name line_number line
  = file_name ++ [space] ++ str_of_int line_number ++ [space]
      ++ ColorFormatter.colored matches line.
Proof.
  intros Hne. pose proof (color_loop_nonempty line matches Hne) as Hpos.
  unfold ColorFormatter.format_string.
  destruct (ColorFormatter.loop line matches) as [colored_line e].
  cbn [fst] in Hpos. now rewrite Hpos.
Qed.

Lemma pieces_app (piece : nat -> span -> str) (a b : list span) :
  forall start,
    pieces piece start (a ++ b)
    = pieces piece start a ++ pieces piece (last_end start a) b
    /\ last_end start (a ++ b) = last_end (last_end start a) b.
Proof.
  induction a as [|m rest IH]; intros start; [now split|].
  cbn [app pieces last_end]. destruct (IH (snd m)) as [-> ->].
  now rewrite <- app_assoc.
Qed.

(** The text the colour formatter returns for a matching line, piece by
    piece. *)
Lemma color_output (matches : list span) (file_name : str)
    (line_number : Z) (line : str) :
  matches <> [] ->
  ColorFormatter.format_string matches file_name line_number line
  = file_name ++ [space] ++ str_of_int line_number ++ [space]
      ++ pieces (color_piece line) 0 matches
      ++ slice_from line (last_end 0 matches).
Proof.
  intros Hne. rewrite color_layout by assumption.
  unfold ColorFormatter.colored. now rewrite color_loop.
Qed.

(** C10: with at least one match the colour formatter returns a text that
    is not empty, whatever the lengths of the matches.  The text is the
    file name, the line number and, for every match in turn, the part of
    the line before it, the start-red sequence, the matched part and the
    reset sequence, then the rest of the line; where a match is empty the
    text holds the start-red sequence and the reset sequence side by
    side. *)
Theorem color_never_empty (matches : list span) (file_name : str)
    (line_number : Z) (line : str) :
  matches <> [] ->
  ColorFormatter.format_string matches file_name line_number line <> []
  /\ ColorFormatter.format_string matches file_name line_number line
     = file_name ++ [space] ++ str_of_int line_number ++ [space]
         ++ ColorFormatter.colored matches line
  /\ ColorFormatter.format_string matches file_name line_number line
     = file_name ++ [space] ++ str_of_int line_number ++ [space]
         ++ pieces (color_piece line) 0 matches
         ++ slice_from line (last_end 0 matches)
  /\ (forall (before : list span) (i : nat) (after : list span),
        matches = before ++ ((i, i) : span) :: after ->
        ColorFormatter.format_string matches file_name line_number line
        = file_name ++ [space] ++ str_of_int line_number ++ [space]
            ++ pieces (color_piece line) 0 before
            ++ slice line (last_end 0 before) i
            ++ ColorFormatter.ansi_red ++ ColorFormatter.ansi_reset
            ++ pieces (color_piece line) i after
            ++ slice_from line (last_end i after))
  /\ length (ColorFormatter.ansi_red ++ ColorFormatter.ansi_reset) * length matches
     <= length (fst (ColorFormatter.loop line matches))
  /\ forall colored_line start_index i,
       ColorFormatter.step line (colored_line, start_index) (i, i)
       = (colored_line ++ slice line start_index i
            ++ ColorFormatter.ansi_red ++ ColorFormatter.ansi_reset, i).
Proof.
  intros Hne. repeat split.
  - rewrite color_layout by assumption. intros Heq.
    apply (f_equal (@length ascii)) in Heq.
    rewrite !length_app in Heq. simpl in Heq. lia.
  - now apply color_layout.
  - now apply color_output.
  - intros before i after Hsplit. rewrite color_output by assumption.
    rewrite Hsplit.
    destruct (pieces_app (color_piece line) before (((i, i) : span) :: after) 0)
      as [Hpieces Hend].
    rewrite Hpieces, Hend.
    cbn [pieces last_end snd]. unfold color_piece at 2. cbn [fst snd].
    unfold slice at 2. rewrite Nat.sub_diag. cbn [firstn app].
    now rewrite <- !app_assoc.
  - rewrite color_loop. apply color_pieces_length.
  - intros colored_line start_index i. unfold ColorFormatter.step, slice.
    now rewrite Nat.sub_diag.
Qed.

Lemma color_never_empty_witness :
  [(0, 0); (1, 1); (2, 2)] <> ([] : list span)
  /\ ColorFormatter.format_string [(0, 0); (1, 1); (2, 2)] (lit "STDIN") 1 (lit "ab")
     <> []
  /\ ColorFormatter.format_string [(0, 0); (1, 1); (2, 2)] (lit "STDIN") 1 (lit "ab")
     = lit "STDIN 1 "
         ++ ColorFormatter.ansi_red ++ ColorFormatter.ansi_reset ++ lit "a"
         ++ ColorFormatter.ansi_red ++ ColorFormatter.ansi_reset ++ lit "b"
         ++ ColorFormatter.ansi_red ++ ColorFormatter.ansi_reset.
Proof.
  pose proof (color_never_empty [(0, 0); (1, 1); (2, 2)] (lit "STDIN") 1
                (lit "ab") ltac:(discriminate)) as (Hne & _ & _ & Hpair & _).
  split; [discriminate|]. split; [exact Hne|].
  exact (Hpair [(0, 0)] 1 [(2, 2)] eq_refl).
Defined.

(** ** The underline format *)

Lemma underline_pieces_nonempty (line : str) (matches : list span) (start : nat) :
  matches <> [] -> pieces (underline_piece line) start matches <> [].
Proof.
  destruct matches as [|m rest]; [congruence|]. intros _ Heq.
  apply (f_equal (@length ascii)) in Heq. cbn [pieces] in Heq.
  unfold underline_piece in Heq. rewrite !length_app in Heq. simpl in Heq. lia.
Qed.

(** The shape of what the underline formatter returns for a matching line. *)
Lemma underline_layout (matches : list span) (file_name : str)
    (line_number : Z) (line : str) :
  matches <> [] ->
  UnderlineFormatter.format_string matches file_name line_number line
  = (file_name ++ [space] ++ str_of_int line_number ++ [space] ++ line)
      ++ (spaces (length (file_name ++ [space] ++ str_of_int line_number ++ [space]))
            ++ UnderlineFormatter.caret_row matches line ++ [newline]).
Proof.
  intros Hne. unfold UnderlineFormatter.format_string.
  rewrite underline_loop.
  rewrite (nonempty_true _ (underline_pieces_nonempty line matches 0 Hne)).
  f_equal. unfold spaces. rewrite !length_app. cbn [length].
  rewrite !repeat_app. cbn [repeat]. now rewrite <- !app_assoc.
Qed.

Lemma caret_row_pieces (matches : list span) (line : str) :
  UnderlineFormatter.caret_row matches line
  = pieces (underline_piece line) 0 matches
      ++ spaces (length (slice_from line (last_end 0 matches))).
Proof.
  unfold UnderlineFormatter.caret_row. now rewrite underline_loop.
Qed.







(** ** Physical lines of the underline format *)

Lemma str_of_uint_chars (d : Decimal.uint) (c : ascii) :
  In c (lit (NilEmpty.string_of_uint d)) -> In c (lit "-0123456789").
Proof.
  induction d as [|d IH|d IH|d IH|d IH|d IH|d IH|d IH|d IH|d IH|d IH];
    simpl; intros H; try contradiction;
    (destruct H as [<-|H]; [simpl; auto 15|exact (IH H)]).
Qed.

Lemma str_of_uint_zero_chars (d : Decimal.uint) (c : ascii) :
  In c (lit (NilZero.string_of_uint d)) -> In c (lit "-0123456789").
Proof.
  destruct d; try apply str_of_uint_chars.
  simpl. intros [<-|H]; [auto|contradiction].
Qed.

Lemma str_of_int_chars (n : Z) (c : ascii) :
  In c (str_of_int n) -> In c (lit "-0123456789").
Proof.
  unfold str_of_int, NilZero.string_of_int.
  destruct (Z.to_int n) as [d|d].
  - apply str_of_uint_zero_chars.
  - cbn [lit list_ascii_of_string]. intros [<-|H].
    + simpl. auto.
    + now apply str_of_uint_zero_chars in H.
Qed.

Lemma no_newline_app (a b : str) :
  no_newline (a ++ b) = no_newline a && no_newline b.
Proof. apply forallb_app. Qed.

Lemma no_newline_str_of_int (n : Z) : no_newline (str_of_int n) = true.
Proof.
  apply forallb_forall. intros c Hc. apply str_of_int_chars in Hc.
  simpl in Hc. repeat (destruct Hc as [<-|Hc]; [reflexivity|]). contradiction.
Qed.

Lemma no_newline_spaces (n : nat) : no_newline (spaces n) = true.
Proof.
  induction n as [|n IH]; [reflexivity|]. exact IH.
Qed.

Lemma no_newline_underline_pieces (line : str) (matches : list span) :
  forall start, no_newline (pieces (underline_piece line) start matches) = true.
Proof.
  induction matches as [|m rest IH]; intros start; [reflexivity|].
  cbn [pieces]. unfold underline_piece.
  now rewrite !no_newline_app, !no_newline_spaces, IH.
Qed.

Lemma no_newline_caret_row (matches : list span) (line : str) :
  no_newline (UnderlineFormatter.caret_row matches line) = true.
Proof.
  rewrite caret_row_pieces, no_newline_app.
  now rewrite no_newline_underline_pieces, no_newline_spaces.
Qed.

Lemma physical_lines_first (a rest : str) :
  no_newline a = true ->
  physical_lines (a ++ newline :: rest) = (a ++ [newline]) :: physical_lines rest.
Proof.
  induction a as [|c a IH]; intros Ha.
  - reflexivity.
  - simpl in Ha. apply andb_prop in Ha as [Hc Ha].
    cbn [app physical_lines]. rewrite (IH Ha).
    apply negb_true_iff in Hc. now rewrite Hc.
Qed.

(** X17: for a matching line that ends with its newline, when neither the
    rest of the line nor the file name holds another, the underline formatter
    returns exactly two physical lines: the text row, and under it the
    alignment padding, as wide as the text before the line, followed by
    the caret row. *)
Theorem underline_two_rows (matches : list span) (file_name : str)
    (line_number : Z) (body : str) :
  matches <> [] ->
  no_newline file_name = true ->
  no_newline body = true ->
  physical_lines
    (UnderlineFormatter.format_string matches file_name line_number
       (body ++ [newline]))
  = [ file_name ++ [space] ++ str_of_int line_number ++ [space]
        ++ body ++ [newline];
      spaces (length (file_name ++ [space] ++ str_of_int line_number
                        ++ [space]))
        ++ UnderlineFormatter.caret_row matches (body ++ [newline])
        ++ [newline] ].
Proof.
  intros Hne Hname Hbody.
  rewrite underline_layout by assumption.
  set (row := UnderlineFormatter.caret_row matches (body ++ [newline])).
  set (pad := spaces (length (file_name ++ [space] ++ str_of_int line_number
                                ++ [space]))).
  replace ((file_name ++ [space] ++ str_of_int line_number ++ [space]
              ++ body ++ [newline]) ++ pad ++ row ++ [newline])
    with ((file_name ++ [space] ++ str_of_int line_number ++ [space] ++ body)
            ++ newline :: (pad ++ row) ++ newline :: [])
    by (now rewrite <- !app_assoc).
  rewrite physical_lines_first.
  - rewrite physical_lines_first.
    + cbn [physical_lines]. now rewrite <- !app_assoc.
    + subst pad row. now rewrite no_newline_app, no_newline_spaces,
        no_newline_caret_row.
  - rewrite !no_newline_app, Hname, Hbody, no_newline_str_of_int. reflexivity.
Qed.

Lemma underline_two_rows_witness :
  physical_lines
    (UnderlineFormatter.format_string [(3, 6)] (lit "STDIN") 1
       (lit "foobar" ++ [newline]))
  = [lit "STDIN 1 foobar" ++ [newline]; lit "           ^   " ++ [newline]].
Proof.
  apply (underline_two_rows [(3, 6)] (lit "STDIN") 1 (lit "foobar"));
    (discriminate || reflexivity).
Defined.

(** C4: the underline formatter is to return two physical lines, the
    carets on a row of their own under the text.  On a line without its
    newline, the last line of a file that does not end with one, it
    returns a single physical line: the padding and the carets follow the
    text on the same line, and the caret is not under the match. *)
Theorem underline_unterminated_line :
  UnderlineFormatter.format_string [(0, 3)] (lit "f") 1 (lit "foo")
  = lit "f 1 foo    ^  " ++ [newline]
  /\ physical_lines
       (UnderlineFormatter.format_string [(0, 3)] (lit "f") 1 (lit "foo"))
     = [lit "f 1 foo    ^  " ++ [newline]]
  /\ length
       (physical_lines
          (UnderlineFormatter.format_string [(0, 3)] (lit "f") 1 (lit "foo")))
     <> 2.
Proof.
  repeat split; try reflexivity. discriminate.
Qed.

(** ** Stripping the colour control sequences *)

Lemma startswith_app (p s : str) : startswith p (p ++ s) = true.
Proof.
  induction p as [|a p IH]; [reflexivity|].
  cbn [app startswith]. now rewrite Ascii.eqb_refl.
Qed.

Lemma removeprefix_app (p s : str) : removeprefix p (p ++ s) = s.
Proof.
  unfold removeprefix. rewrite startswith_app.
  induction p as [|a p IH]; [reflexivity|exact IH].
Qed.

Lemma startswith_nil_false (p s : str) :
  startswith p s = false -> startswith p [] = false.
Proof.
  destruct p; [discriminate|reflexivity].
Qed.

Lemma startswith_firstn (p : str) :
  forall n s, startswith p (firstn n s) = true -> startswith p s = true.
Proof.
  induction p as [|a p IH]; intros n s H; [reflexivity|].
  destruct n, s; try discriminate. cbn [firstn startswith] in *.
  apply andb_prop in H as [Ha H]. now rewrite Ha, (IH _ _ H).
Qed.

Lemma occurs_cons (sub : str) (c : ascii) (s : str) :
  occurs sub (c :: s) = false ->
  startswith sub (c :: s) = false /\ occurs sub s = false.
Proof.
  cbn [occurs]. apply orb_false_elim.
Qed.

Lemma occurs_startswith (sub s : str) :
  occurs sub s = false -> startswith sub s = false.
Proof.
  destruct s; cbn [occurs]; intros H; now apply orb_false_elim in H.
Qed.

Lemma occurs_firstn (sub s : str) :
  forall n, occurs sub s = false -> occurs sub (firstn n s) = false.
Proof.
  induction s as [|c s IH]; intros n H.
  - now rewrite firstn_nil.
  - destruct n as [|n].
    + cbn [firstn occurs]. rewrite orb_false_r.
      apply occurs_startswith in H. now apply startswith_nil_false in H.
    + apply occurs_cons in H as [Hhead Htail].
      cbn [firstn occurs]. rewrite (IH n Htail), orb_false_r.
      destruct (startswith sub (c :: firstn n s)) eqn:E; [|reflexivity].
      apply (startswith_firstn sub (S n) (c :: s)) in E. congruence.
Qed.

Lemma occurs_skipn (sub s : str) :
  forall n, occurs sub s = false -> occurs sub (skipn n s) = false.
Proof.
  induction s as [|c s IH]; intros n H.
  - now rewrite skipn_nil.
  - destruct n as [|n]; [exact H|].
    apply occurs_cons in H as [_ Htail]. now apply IH.
Qed.

Lemma occurs_slice (sub line : str) (a b : nat) :
  occurs sub line = false -> occurs sub (slice line a b) = false.
Proof.
  intros H. unfold slice. now apply occurs_firstn, occurs_skipn.
Qed.

(** When a text that starts with [p] is cut after a part that is not
    empty and does not start with [p], then [p] goes on in the rest. *)
Lemma startswith_across (p : str) :
  forall seg k,
    seg <> [] ->
    startswith p (seg ++ k) = true ->
    startswith p seg = true
    \/ exists c k', k = c :: k' /\ In c (tl p).
Proof.
  induction p as [|a p IH]; intros seg k Hseg H; [now left|].
  destruct seg as [|b seg]; [congruence|].
  cbn [app startswith] in *. apply andb_prop in H as [Hab H]. rewrite Hab.
  destruct seg as [|b' seg].
  - destruct p as [|a' p]; [now left|]. right.
    destruct k as [|c k']; [discriminate|].
    cbn [app startswith] in H. apply andb_prop in H as [Hc _].
    apply Ascii.eqb_eq in Hc. subst c. exists a', k'. split; [reflexivity|].
    now left.
  - destruct (IH (b' :: seg) k ltac:(discriminate) H) as [Hs|(c & k' & -> & Hin)].
    + now left.
    + right. exists c, k'. split; [reflexivity|].
      destruct p; [contradiction|]. now right.
Qed.

Lemma breaks_nil : breaks [].
Proof. intros c k' H. discriminate. Qed.

Lemma breaks_escape (k : str) : breaks (escape :: k).
Proof.
  intros c k' H. injection H as <- _.
  split; simpl; intuition discriminate.
Qed.

Lemma breaks_space (k : str) : breaks (space :: k).
Proof.
  intros c k' H. injection H as <- _.
  split; simpl; intuition discriminate.
Qed.

Lemma strip_color_cons (c : ascii) (rest : str) :
  startswith ColorFormatter.ansi_red (c :: rest) = false ->
  startswith ColorFormatter.ansi_reset (c :: rest) = false ->
  strip_color (c :: rest) = c :: strip_color rest.
Proof.
  intros Hred Hreset. unfold strip_color.
  change (strip_from 0 (c :: rest))
    with (if startswith ColorFormatter.ansi_red (c :: rest)
          then strip_from (length ColorFormatter.ansi_red - 1) rest
          else if startswith ColorFormatter.ansi_reset (c :: rest)
          then strip_from (length ColorFormatter.ansi_reset - 1) rest
          else c :: strip_from 0 rest).
  now rewrite Hred, Hreset.
Qed.

Lemma strip_color_red (s : str) :
  strip_color (ColorFormatter.ansi_red ++ s) = strip_color s.
Proof. reflexivity. Qed.

Lemma strip_color_reset (s : str) :
  strip_color (ColorFormatter.ansi_reset ++ s) = strip_color s.
Proof. reflexivity. Qed.

Lemma strip_color_space (s : str) :
  strip_color (space :: s) = space :: strip_color s.
Proof. reflexivity. Qed.

(** A part of the text that holds no control sequence is kept as it is,
    provided what follows cannot complete one. *)
Lemma strip_color_keeps (seg : str) :
  forall k,
    occurs ColorFormatter.ansi_red seg = false ->
    occurs ColorFormatter.ansi_reset seg = false ->
    breaks k ->
    strip_color (seg ++ k) = seg ++ strip_color k.
Proof.
  induction seg as [|c seg IH]; intros k Hred Hreset Hk; [reflexivity|].
  apply occurs_cons in Hred as [Hred Hred'].
  apply occurs_cons in Hreset as [Hreset Hreset'].
  cbn [app]. rewrite strip_color_cons.
  - now rewrite IH.
  - destruct (startswith ColorFormatter.ansi_red (c :: seg ++ k)) eqn:E;
      [|reflexivity].
    destruct (startswith_across _ (c :: seg) k ltac:(discriminate) E)
      as [Hs|(c' & k' & -> & Hin)]; [congruence|].
    now destruct (Hk c' k' eq_refl).
  - destruct (startswith ColorFormatter.ansi_reset (c :: seg ++ k)) eqn:E;
      [|reflexivity].
    destruct (startswith_across _ (c :: seg) k ltac:(discriminate) E)
      as [Hs|(c' & k' & -> & Hin)]; [congruence|].
    now destruct (Hk c' k' eq_refl).
Qed.

Lemma occurs_without_escape (p s : str) :
  (forall c, In c s -> c <> escape) -> occurs (escape :: p) s = false.
Proof.
  induction s as [|c s IH]; intros H; [reflexivity|].
  cbn [occurs startswith]. rewrite IH by (intros c' Hc'; apply H; now right).
  rewrite orb_false_r.
  destruct (Ascii.eqb escape c) eqn:E; [|reflexivity].
  apply Ascii.eqb_eq in E. now destruct (H c (or_introl eq_refl)).
Qed.

Lemma str_of_int_no_escape (n : Z) (c : ascii) :
  In c (str_of_int n) -> c <> escape.
Proof.
  intros Hc. apply str_of_int_chars in Hc. simpl in Hc.
  repeat (destruct Hc as [<-|Hc]; [discriminate|]). contradiction.
Qed.

Lemma strip_colored_from (line : str) (matches : list span) :
  occurs ColorFormatter.ansi_red line = false ->
  occurs ColorFormatter.ansi_reset line = false ->
  forall start,
    ordered start matches = true ->
    strip_color (pieces (color_piece line) start matches
                   ++ slice_from line (last_end start matches))
    = slice_from line start.
Proof.
  intros Hred Hreset.
  induction matches as [|[s e] rest IH]; intros start Hord.
  - cbn [pieces last_end app].
    rewrite <- (app_nil_r (slice_from line start)) at 1.
    rewrite strip_color_keeps; try apply breaks_nil;
      try (now apply occurs_skipn).
    apply app_nil_r.
  - simpl in Hord. apply andb_prop in Hord as [Hord Hrest].
    apply andb_prop in Hord as [Hs He]. apply Nat.leb_le in Hs, He.
    cbn [pieces last_end snd]. unfold color_piece at 1. cbn [fst snd].
    rewrite <- !app_assoc.
    rewrite strip_color_keeps;
      try (now apply occurs_slice); try apply breaks_escape.
    rewrite strip_color_red.
    rewrite strip_color_keeps;
      try (now apply occurs_slice); try apply breaks_escape.
    rewrite strip_color_reset, (IH e Hrest).
    now rewrite !slice_from_split.
Qed.

(** C3, as amended: when neither the line nor the file name holds one of
    the two control sequences, and the matches are in order and do not
    overlap, removing the control sequences from what the colour formatter
    returns, and then the leading file name and line number, gives the
    line back. *)
Theorem color_round_trip (matches : list span) (file_name : str)
    (line_number : Z) (line : str) :
  matches <> [] ->
  ordered 0 matches = true ->
  occurs ColorFormatter.ansi_red line = false ->
  occurs ColorFormatter.ansi_reset line = false ->
  occurs ColorFormatter.ansi_red file_name = false ->
  occurs ColorFormatter.ansi_reset file_name = false ->
  removeprefix (file_name ++ [space] ++ str_of_int line_number ++ [space])
    (strip_color (ColorFormatter.format_string matches file_name line_number line))
  = line.
Proof.
  intros Hne Hord Hred Hreset Hfred Hfreset.
  rewrite color_layout by assumption.
  unfold ColorFormatter.colored. rewrite color_loop.
  cbn [app].
  rewrite strip_color_keeps by (assumption || apply breaks_space).
  rewrite strip_color_space.
  rewrite strip_color_keeps;
    try (apply occurs_without_escape, str_of_int_no_escape);
    try apply breaks_space.
  rewrite strip_color_space.
  rewrite (strip_colored_from line matches Hred Hreset 0 Hord).
  unfold slice_from. cbn [skipn].
  replace (file_name ++ space :: str_of_int line_number ++ space :: line)
    with ((file_name ++ [space] ++ str_of_int line_number ++ [space]) ++ line)
    by (now rewrite <- !app_assoc).
  apply removeprefix_app.
Qed.

Lemma color_round_trip_witness :
  removeprefix (lit "STDIN" ++ [space] ++ str_of_int 7 ++ [space])
    (strip_color
       (ColorFormatter.format_string [(0, 3); (3, 3); (4, 6)] (lit "STDIN") 7
          (lit "foobar" ++ [newline])))
  = lit "foobar" ++ [newline].
Proof.
  apply (color_round_trip [(0, 3); (3, 3); (4, 6)] (lit "STDIN") 7
           (lit "foobar" ++ [newline])); (discriminate || reflexivity).
Defined.

(** C3 as stated, for every line, fails: a line that holds the reset
    sequence itself loses it with the ones the formatter added. *)
Lemma color_round_trip_counterexample :
  [(0, 1)] <> ([] : list span)
  /\ ordered 0 [(0, 1)] = true
  /\ ColorFormatter.format_string [(0, 1)] (lit "STDIN") 1
       (lit "x" ++ ColorFormatter.ansi_reset ++ [newline])
     <> []
  /\ removeprefix (lit "STDIN" ++ [space] ++ str_of_int 1 ++ [space])
       (strip_color
          (ColorFormatter.format_string [(0, 1)] (lit "STDIN") 1
             (lit "x" ++ ColorFormatter.ansi_reset ++ [newline])))
     = lit "x" ++ [newline]
  /\ removeprefix (lit "STDIN" ++ [space] ++ str_of_int 1 ++ [space])
       (strip_color
          (ColorFormatter.format_string [(0, 1)] (lit "STDIN") 1
             (lit "x" ++ ColorFormatter.ansi_reset ++ [newline])))
     <> lit "x" ++ ColorFormatter.ansi_reset ++ [newline].
Proof.
  repeat split; try reflexivity; discriminate.
Qed.

(** ** Runs *)

Lemma bind_ok {A B} (m : M A) (f : A -> M B) (a : A) :
  snd m = Ok a -> bind m f = (fst m ++ fst (f a), snd (f a)).
Proof. intros H. unfold bind. now rewrite H. Qed.

Lemma bind_raise {A B} (m : M A) (f : A -> M B) (e : exn) :
  snd m = Raise e -> bind m f = (fst m, Raise e).
Proof. intros H. unfold bind. now rewrite H. Qed.

Lemma stdout_app (t1 t2 : list event) : stdout (t1 ++ t2) = stdout t1 ++ stdout t2.
Proof. apply flat_map_app. Qed.

Lemma compiles_app (t1 t2 : list event) :
  compiles (t1 ++ t2) = compiles t1 ++ compiles t2.
Proof. apply flat_map_app. Qed.

Lemma str_eqb_eq (a b : str) : str_eqb a b = true <-> a = b.
Proof.
  unfold str_eqb. destruct (list_eq_dec ascii_dec a b); split;
    (congruence || discriminate || reflexivity).
Qed.

Lemma nonempty_false (s : str) : nonempty s = false -> s = [].
Proof. destruct s; [reflexivity|discriminate]. Qed.

Lemma read_loop_acc (stdin : list str) :
  forall stdin_lines, read_loop stdin_lines stdin = stdin_lines ++ read_loop [] stdin.
Proof.
  induction stdin as [|line rest IH]; intros stdin_lines; cbn [read_loop].
  - now rewrite app_nil_r.
  - destruct (str_eqb (lit "q") (rstrip line)).
    + now rewrite app_nil_r.
    + rewrite IH, (IH ([] ++ [line])). now rewrite <- app_assoc.
Qed.

Lemma read_from_stdin_cons (line : str) (rest : list str) :
  read_from_stdin (line :: rest)
  = if str_eqb (lit "q") (rstrip line) then [] else line :: read_from_stdin rest.
Proof.
  unfold read_from_stdin. cbn [read_loop].
  destruct (str_eqb (lit "q") (rstrip line)); [reflexivity|].
  now rewrite read_loop_acc.
Qed.

Lemma read_from_stdin_all (pre : list str) :
  Forall (fun line => rstrip line <> lit "q") pre -> read_from_stdin pre = pre.
Proof.
  induction 1 as [|line rest Hline _ IH]; [reflexivity|].
  rewrite read_from_stdin_cons, IH.
  destruct (str_eqb (lit "q") (rstrip line)) eqn:E; [|reflexivity].
  apply str_eqb_eq in E. congruence.
Qed.

Lemma read_from_stdin_stops (pre : list str) (sentinel : str) (post : list str) :
  rstrip sentinel = lit "q" ->
  read_from_stdin (pre ++ sentinel :: post) = read_from_stdin pre.
Proof.
  intros Hq. induction pre as [|line rest IH].
  - cbn [app]. rewrite read_from_stdin_cons, Hq. reflexivity.
  - cbn [app]. rewrite !read_from_stdin_cons, IH. reflexivity.
Qed.

Lemma get_formatter_of_style (args : Namespace) :
  FormatterFactory.get_formatter (Some (format_style_of args))
  = Ok (formatter_of args).
Proof.
  unfold format_style_of, formatter_of.
  destruct (color args), (machine args), (underline args); reflexivity.
Qed.

Section RunProperties.

Variable Pattern : Type.
Variable re_compile : str -> Pattern + str.
Variable finditer : Pattern -> str -> list span.
Variable fs : str -> option (list str).

Local Abbreviation scan := (PatternMatcher.scan Pattern finditer).
Local Abbreviation rendered := (PatternMatcher.rendered Pattern finditer).
Local Abbreviation _print_matches :=
  (PatternMatcher._print_matches Pattern re_compile finditer).
Local Abbreviation print_matches_from_files :=
  (PatternMatcher.print_matches_from_files Pattern re_compile finditer fs).
Local Abbreviation readable := (PatternMatcher.readable fs).
Local Abbreviation lines_of := (PatternMatcher.lines_of fs).
Local Abbreviation diagnostic := PatternMatcher.diagnostic.
Local Abbreviation run := (main Pattern re_compile finditer fs).

Lemma scan_run (pattern : Pattern) (formatter : IFormatter) (file_name : str)
    (lines : list str) :
  forall line_number,
    snd (scan pattern formatter file_name line_number lines) = Ok tt
    /\ stdout (fst (scan pattern formatter file_name line_number lines))
       = rendered pattern formatter file_name line_number lines
    /\ compiles (fst (scan pattern formatter file_name line_number lines)) = [].
Proof.
  induction lines as [|line rest IH]; intros line_number.
  - repeat split.
  - destruct (IH (line_number + 1)%Z) as (Hok & Hout & Hcomp).
    cbn [PatternMatcher.scan PatternMatcher.rendered].
    set (formatted_line :=
           format_string formatter (finditer pattern line) file_name
             line_number line).
    destruct (nonempty formatted_line) eqn:E.
    + rewrite (bind_ok _ _ tt) by reflexivity. cbn [fst snd].
      rewrite stdout_app, compiles_app, Hout, Hcomp, Hok.
      repeat split. cbn. now rewrite app_nil_r.
    + rewrite (bind_ok _ _ tt) by reflexivity. cbn [fst snd].
      rewrite stdout_app, compiles_app, Hout, Hcomp, Hok.
      apply nonempty_false in E. rewrite E. repeat split.
Qed.

Lemma print_matches_compiled (regex : str) (pattern : Pattern)
    (formatter : IFormatter) (iterable : list str) (file_name : str) :
  re_compile regex = inl pattern ->
  _print_matches regex formatter iterable file_name
  = (Compile regex :: fst (scan pattern formatter file_name 1 iterable), Ok tt).
Proof.
  intros Hc. unfold PatternMatcher._print_matches. rewrite Hc.
  rewrite (bind_ok _ _ pattern) by reflexivity.
  destruct (scan_run pattern formatter file_name iterable 1) as (Hok & _).
  now rewrite Hok.
Qed.

Lemma print_matches_rejected (regex ex : str) (formatter : IFormatter)
    (iterable : list str) (file_name : str) :
  re_compile regex = inr ex ->
  _print_matches regex formatter iterable file_name
  = ([Compile regex; Output (diagnostic regex ex ++ [newline])],
     Raise (SystemExit 1)).
Proof.
  intros Hc. unfold PatternMatcher._print_matches. rewrite Hc. reflexivity.
Qed.

Lemma files_run (regex : str) (pattern : Pattern) (formatter : IFormatter)
    (files_list : list str) :
  re_compile regex = inl pattern ->
  readable files_list ->
  snd (print_matches_from_files regex formatter files_list) = Ok tt
  /\ stdout (fst (print_matches_from_files regex formatter files_list))
     = flat_map (fun file_name =>
                   rendered pattern formatter file_name 1 (lines_of file_name))
         files_list
  /\ compiles (fst (print_matches_from_files regex formatter files_list))
     = repeat regex (length files_list).
Proof.
  intros Hc Hopen. induction Hopen as [|file_name rest Hfile _ IH].
  - repeat split.
  - destruct IH as (Hok & Hout & Hcomp).
    cbn [PatternMatcher.print_matches_from_files flat_map length repeat].
    unfold PatternMatcher.lines_of. destruct (fs file_name) as [f|]; [|congruence].
    rewrite (print_matches_compiled _ pattern) by assumption.
    rewrite (bind_ok _ _ tt) by reflexivity. cbn [fst snd].
    destruct (scan_run pattern formatter file_name f 1) as (_ & Hs & Hn).
    change (Compile regex :: ?t) with ([Compile regex] ++ t).
    rewrite !stdout_app, !compiles_app, Hs, Hn, Hout, Hcomp, Hok.
    repeat split.
Qed.

Lemma main_dispatch (args : Namespace) (stdin : list str) :
  run args stdin
  = match files args with
    | Some files_list =>
        print_matches_from_files (regex args) (formatter_of args) files_list
    | None =>
        _print_matches (regex args) (formatter_of args)
          (read_from_stdin stdin) (lit "STDIN")
    end.
Proof.
  unfold main. rewrite get_formatter_of_style.
  unfold lift. rewrite (bind_ok _ _ (formatter_of args)) by reflexivity.
  cbn [fst snd app]. unfold PatternMatcher.print_matches_from_strings.
  destruct (files args); symmetry; apply surjective_pairing.
Qed.

Lemma rendered_app (pattern : Pattern) (formatter : IFormatter)
    (file_name : str) (a b : list str) :
  forall line_number,
    rendered pattern formatter file_name line_number (a ++ b)
    = rendered pattern formatter file_name line_number a
        ++ rendered pattern formatter file_name
             (line_number + Z.of_nat (length a)) b.
Proof.
  induction a as [|line rest IH]; intros line_number.
  - cbn. now rewrite Z.add_0_r.
  - cbn [app PatternMatcher.rendered length]. rewrite IH, <- app_assoc.
    do 3 f_equal. lia.
Qed.

(** C6, as amended: when the pattern does not compile, and the run reads
standard input or the first of its files can be opened, the run prints the
diagnostic, which holds the pattern, and ends with exit code 1; the
diagnostic is all it writes, no line is formatted. *)
Theorem bad_regex_is_fatal (args : Namespace) (stdin : list str) (ex : str) :
  re_compile (regex args) = inr ex ->
  first_file_opens fs args ->
  run args stdin
  = ([Compile (regex args); Output (diagnostic (regex args) ex ++ [newline])],
     Raise (SystemExit 1))
  /\ exit_code (snd (run args stdin)) = 1%Z
  /\ stdout (fst (run args stdin)) = diagnostic (regex args) ex ++ [newline]
  /\ exists before after,
       stdout (fst (run args stdin)) = before ++ regex args ++ after.
Proof.
  intros Hc Hopen.
  assert (Hrun : run args stdin
                 = ([Compile (regex args);
                     Output (diagnostic (regex args) ex ++ [newline])],
                    Raise (SystemExit 1))).
  { rewrite main_dispatch. unfold first_file_opens in Hopen.
    destruct (files args) as [[|file_name rest]|]; [contradiction| |].
    - cbn [PatternMatcher.print_matches_from_files].
      destruct (fs file_name) as [f|]; [|congruence].
      rewrite (print_matches_rejected _ ex) by assumption.
      now rewrite (bind_raise _ _ (SystemExit 1)) by reflexivity.
    - now apply print_matches_rejected. }
  rewrite Hrun. repeat split.
  - cbn. now rewrite app_nil_r.
  - exists (lit "Bad regex, " ++ ex ++ lit ", regex: " ++ [dquote]),
      ([dquote] ++ [newline]).
    cbn [fst stdout flat_map]. unfold diagnostic.
    now rewrite app_nil_r, <- !app_assoc.
Qed.

(** C8, as amended: in a run whose files can be opened, the pattern given
on the command line is compiled once by every call of [_print_matches].
When it compiles, that is once in a run on standard input and once for
each file in a run on files, and every line of every file is scanned with
what it compiles to.  When it does not compile, it is compiled once, for
standard input or for the first file, and the run ends there. *)
Theorem pattern_compiled_per_file (args : Namespace) (stdin : list str) :
  files_open fs args ->
  (forall pattern,
     re_compile (regex args) = inl pattern ->
     snd (run args stdin) = Ok tt
     /\ compiles (fst (run args stdin))
        = repeat (regex args)
            match files args with
            | Some files_list => length files_list
            | None => 1
            end
     /\ stdout (fst (run args stdin))
        = match files args with
          | Some files_list =>
              flat_map (fun file_name =>
                          rendered pattern (formatter_of args) file_name 1
                            (lines_of file_name))
                files_list
          | None =>
              rendered pattern (formatter_of args) (lit "STDIN") 1
                (read_from_stdin stdin)
          end)
  /\ (forall ex,
        re_compile (regex args) = inr ex ->
        compiles (fst (run args stdin))
        = match files args with
          | Some [] => []
          | _ => [regex args]
          end).
Proof.
  intros Hopen. unfold files_open in Hopen. split.
  - intros pattern Hc. rewrite main_dispatch.
    destruct (files args) as [files_list|].
    + destruct (files_run (regex args) pattern (formatter_of args) files_list
                  Hc Hopen) as (Hok & Hout & Hcomp).
      now repeat split.
    + rewrite (print_matches_compiled _ pattern) by assumption. cbn [fst snd].
      destruct (scan_run pattern (formatter_of args) (lit "STDIN")
                  (read_from_stdin stdin) 1) as (_ & Hout & Hcomp).
      change (Compile (regex args) :: ?t) with ([Compile (regex args)] ++ t).
      rewrite stdout_app, compiles_app, Hout, Hcomp. repeat split.
  - intros ex Hc. rewrite main_dispatch.
    destruct (files args) as [[|file_name rest]|].
    + reflexivity.
    + cbn [PatternMatcher.print_matches_from_files].
      inversion Hopen as [|? ? Hfile _]. subst.
      destruct (fs file_name) as [f|]; [|congruence].
      rewrite (print_matches_rejected _ ex) by assumption.
      now rewrite (bind_raise _ _ (SystemExit 1)) by reflexivity.
    + now rewrite (print_matches_rejected _ ex) by assumption.
Qed.

(** C9: in a file, whichever of the named files it is, a line that the
reader of standard input would stop at is scanned and formatted like the
others, with the line number it has in the file, and so are the lines
after it and the files after it; the reader of standard input alone
drops it and what follows. *)
Theorem file_read_past_sentinel (args : Namespace) (stdin : list str)
    (pattern : Pattern) (before : list str) (file_name : str)
    (after : list str) (pre : list str) (sentinel : str) (post : list str) :
  files args = Some (before ++ file_name :: after) ->
  files_open fs args ->
  fs file_name = Some (pre ++ sentinel :: post) ->
  re_compile (regex args) = inl pattern ->
  rstrip sentinel = lit "q" ->
  snd (run args stdin) = Ok tt
  /\ stdout (fst (run args stdin))
     = flat_map (fun file_name =>
                   rendered pattern (formatter_of args) file_name 1
                     (lines_of file_name))
         before
         ++ (rendered pattern (formatter_of args) file_name 1 pre
               ++ format_string (formatter_of args) (finditer pattern sentinel)
                    file_name (Z.of_nat (length pre) + 1) sentinel
               ++ rendered pattern (formatter_of args) file_name
                    (Z.of_nat (length pre) + 2) post)
         ++ flat_map (fun file_name =>
                        rendered pattern (formatter_of args) file_name 1
                          (lines_of file_name))
              after
  /\ read_from_stdin (pre ++ sentinel :: post) = read_from_stdin pre.
Proof.
  intros Hfiles Hopen Hfile Hc Hq.
  unfold files_open in Hopen. rewrite Hfiles in Hopen.
  destruct (files_run (regex args) pattern (formatter_of args)
              (before ++ file_name :: after) Hc Hopen) as (Hok & Hout & _).
  rewrite main_dispatch, Hfiles. split; [exact Hok|]. split.
  - rewrite Hout, flat_map_app. cbn [flat_map]. do 2 f_equal.
    unfold PatternMatcher.lines_of at 1. rewrite Hfile.
    rewrite rendered_app. cbn [PatternMatcher.rendered].
    replace (1 + Z.of_nat (length pre))%Z with (Z.of_nat (length pre) + 1)%Z by lia.
    replace (Z.of_nat (length pre) + 1 + 1)%Z
      with (Z.of_nat (length pre) + 2)%Z by lia.
    reflexivity.
  - now apply read_from_stdin_stops.
Qed.

(** C7, as amended: reading standard input stops at the first line that
is [q] once all its trailing whitespace, the line terminator included, is
trimmed.  That line and the lines after it are neither scanned nor
formatted; the lines before it are, under the name [STDIN].  Without such
a line all the input is read. *)
Theorem stdin_read_until_sentinel (args : Namespace) (pattern : Pattern)
    (pre : list str) :
  files args = None ->
  re_compile (regex args) = inl pattern ->
  Forall (fun line => rstrip line <> lit "q") pre ->
  (read_from_stdin pre = pre
   /\ stdout (fst (run args pre))
      = rendered pattern (formatter_of args) (lit "STDIN") 1 pre)
  /\ forall sentinel post,
       rstrip sentinel = lit "q" ->
       read_from_stdin (pre ++ sentinel :: post) = pre
       /\ snd (run args (pre ++ sentinel :: post)) = Ok tt
       /\ stdout (fst (run args (pre ++ sentinel :: post)))
          = rendered pattern (formatter_of args) (lit "STDIN") 1 pre.
Proof.
  intros Hfiles Hc Hpre.
  assert (Hrun : forall stdin,
            read_from_stdin stdin = pre ->
            snd (run args stdin) = Ok tt
            /\ stdout (fst (run args stdin))
               = rendered pattern (formatter_of args) (lit "STDIN") 1 pre).
  { intros stdin Hread. rewrite main_dispatch, Hfiles, Hread.
    rewrite (print_matches_compiled _ pattern) by assumption. cbn [fst snd].
    destruct (scan_run pattern (formatter_of args) (lit "STDIN") pre 1)
      as (_ & Hout & _).
    change (Compile (regex args) :: ?t) with ([Compile (regex args)] ++ t).
    now rewrite stdout_app, Hout. }
  pose proof (read_from_stdin_all pre Hpre) as Hall. split.
  - split; [exact Hall|]. now apply Hrun.
  - intros sentinel post Hq.
    assert (Hstop : read_from_stdin (pre ++ sentinel :: post) = pre)
      by (now rewrite read_from_stdin_stops).
    split; [exact Hstop|]. now apply Hrun.
Qed.

End RunProperties.

(** ** The runs on the stand-in *)

Lemma bad_regex_is_fatal_witness :
  exit_code
    (snd (ToyRe.main
            {| regex := lit "("; files := Some [lit "a.txt"; lit "b.txt"];
               underline := true; color := false; machine := false |} []))
  = 1%Z
  /\ stdout
       (fst (ToyRe.main
               {| regex := lit "("; files := Some [lit "a.txt"; lit "b.txt"];
                  underline := true; color := false; machine := false |} []))
     = lit "Bad regex, missing ), unterminated subpattern at position 0, regex: "
         ++ [dquote] ++ lit "(" ++ [dquote] ++ [newline].
Proof.
  pose proof (bad_regex_is_fatal ToyRe.Pattern ToyRe.re_compile ToyRe.finditer
                ToyRe.fs
                {| regex := lit "("; files := Some [lit "a.txt"; lit "b.txt"];
                   underline := true; color := false; machine := false |} []
                (lit "missing ), unterminated subpattern at position 0")
                eq_refl ltac:(vm_compute; discriminate)) as (_ & Hexit & Hout & _).
  split; [exact Hexit|exact Hout].
Defined.

Lemma pattern_compiled_per_file_witness :
  compiles
    (fst (ToyRe.main
            {| regex := lit "foo"; files := Some [lit "a.txt"; lit "b.txt"];
               underline := false; color := false; machine := true |} []))
  = [lit "foo"; lit "foo"]
  /\ stdout
       (fst (ToyRe.main
               {| regex := lit "foo"; files := Some [lit "a.txt"; lit "b.txt"];
                  underline := false; color := false; machine := true |} []))
     = lit "a.txt:1:0:foo" ++ [newline] ++ lit "a.txt:3:5:foo" ++ [newline]
         ++ lit "b.txt:1:0:foo" ++ [newline]
  /\ compiles
       (fst (ToyRe.main
               {| regex := lit "("; files := Some [lit "a.txt"; lit "b.txt"];
                  underline := false; color := false; machine := true |} []))
     = [lit "("].
Proof.
  destruct (pattern_compiled_per_file ToyRe.Pattern ToyRe.re_compile
              ToyRe.finditer ToyRe.fs
              {| regex := lit "foo"; files := Some [lit "a.txt"; lit "b.txt"];
                 underline := false; color := false; machine := true |} []
              ltac:(repeat constructor; vm_compute; discriminate))
    as (Hgood & _).
  destruct (Hgood (lit "foo") eq_refl) as (_ & Hcomp & Hout).
  destruct (pattern_compiled_per_file ToyRe.Pattern ToyRe.re_compile
              ToyRe.finditer ToyRe.fs
              {| regex := lit "("; files := Some [lit "a.txt"; lit "b.txt"];
                 underline := false; color := false; machine := true |} []
              ltac:(repeat constructor; vm_compute; discriminate))
    as (_ & Hbad).
  split; [exact Hcomp|]. split; [exact Hout|].
  exact (Hbad (lit "missing ), unterminated subpattern at position 0") eq_refl).
Defined.

(** C8 as stated fails: on two files the pattern is compiled twice. *)
Lemma pattern_compiled_once_counterexample :
  ToyRe.re_compile (lit "foo") = inl (lit "foo")
  /\ compiles
       (fst (ToyRe.main
               {| regex := lit "foo"; files := Some [lit "a.txt"; lit "b.txt"];
                  underline := false; color := false; machine := false |} []))
     = [lit "foo"; lit "foo"]
  /\ length
       (compiles
          (fst (ToyRe.main
                  {| regex := lit "foo"; files := Some [lit "a.txt"; lit "b.txt"];
                     underline := false; color := false; machine := false |} [])))
     <> 1.
Proof.
  repeat split; try reflexivity. vm_compute. discriminate.
Qed.

Lemma file_read_past_sentinel_witness :
  stdout
    (fst (ToyRe.main
            {| regex := []; files := Some [lit "b.txt"; lit "a.txt"];
               underline := false; color := false; machine := false |}
            [lit "never read" ++ [newline]]))
  = lit "b.txt 1 foofoo"
      ++ (lit "a.txt 1 foo" ++ [newline] ++ lit "a.txt 2 q" ++ [newline]
            ++ lit "a.txt 3 quux foo" ++ [newline])
  /\ read_from_stdin
       [lit "foo" ++ [newline]; lit "q" ++ [newline]; lit "quux foo" ++ [newline]]
     = [lit "foo" ++ [newline]].
Proof.
  pose proof (file_read_past_sentinel ToyRe.Pattern ToyRe.re_compile
                ToyRe.finditer ToyRe.fs
                {| regex := []; files := Some [lit "b.txt"; lit "a.txt"];
                   underline := false; color := false; machine := false |}
                [lit "never read" ++ [newline]] [] [lit "b.txt"] (lit "a.txt") []
                [lit "foo" ++ [newline]] (lit "q" ++ [newline])
                [lit "quux foo" ++ [newline]]
                eq_refl ltac:(repeat constructor; vm_compute; discriminate)
                eq_refl eq_refl eq_refl) as (_ & Hout & Hread).
  split; [exact Hout|exact Hread].
Defined.

(** C6 as stated, for every input, fails: when the first file cannot be
    opened the run ends on it before the pattern is looked at, and the
    pattern that does not compile is not reported. *)
Lemma bad_regex_missing_file_counterexample :
  ToyRe.re_compile (lit "(")
  = inr (lit "missing ), unterminated subpattern at position 0")
  /\ ToyRe.fs (lit "c.txt") = None
  /\ ToyRe.main
       {| regex := lit "("; files := Some [lit "c.txt"; lit "a.txt"];
          underline := false; color := false; machine := false |} []
     = ([], Raise (OSError (lit "c.txt")))
  /\ stdout
       (fst (ToyRe.main
               {| regex := lit "("; files := Some [lit "c.txt"; lit "a.txt"];
                  underline := false; color := false; machine := false |} []))
     = [].
Proof.
  repeat split.
Qed.

Lemma stdin_read_until_sentinel_witness :
  read_from_stdin
    [lit "foobar" ++ [newline]; lit "q x" ++ [newline]; lit "q" ++ [space; newline];
     lit "foo" ++ [newline]]
  = [lit "foobar" ++ [newline]; lit "q x" ++ [newline]]
  /\ stdout
       (fst (ToyRe.main
               {| regex := lit "o"; files := None;
                  underline := false; color := false; machine := true |}
               [lit "foobar" ++ [newline]; lit "q x" ++ [newline];
                lit "q" ++ [space; newline]; lit "foo" ++ [newline]]))
     = lit "STDIN:1:1:o" ++ [newline].
Proof.
  pose proof (stdin_read_until_sentinel ToyRe.Pattern ToyRe.re_compile
                ToyRe.finditer ToyRe.fs
                {| regex := lit "o"; files := None;
                   underline := false; color := false; machine := true |}
                (lit "o") [lit "foobar" ++ [newline]; lit "q x" ++ [newline]]
                eq_refl eq_refl
                ltac:(repeat constructor; vm_compute; discriminate))
    as (_ & Hstop).
  destruct (Hstop (lit "q" ++ [space; newline]) [lit "foo" ++ [newline]] eq_refl)
    as (Hread & _ & Hout).
  split; [exact Hread|exact Hout].
Defined.

(** C7 as stated fails: a line with a blank after the [q] is not [q] once
only its terminator is trimmed, yet the reader stops at it. *)
Lemma stdin_trailing_blank_counterexample :
  trim_terminator (lit "q" ++ [space; newline]) = lit "q" ++ [space]
  /\ is_sentinel_documented (lit "q" ++ [space; newline]) = false
  /\ read_documented [lit "q" ++ [space; newline]; lit "foo" ++ [newline]]
     = [lit "q" ++ [space; newline]; lit "foo" ++ [newline]]
  /\ read_from_stdin [lit "q" ++ [space; newline]; lit "foo" ++ [newline]] = []
  /\ read_from_stdin [lit "q" ++ [space; newline]; lit "foo" ++ [newline]]
     <> read_documented [lit "q" ++ [space; newline]; lit "foo" ++ [newline]].
Proof.
  repeat split; try reflexivity. vm_compute. discriminate.
Qed.

(** * Further properties of the formatters *)

(** X1: a formatter returns the empty string only when there is no match:
    with the first property above, the output is empty exactly when the
    sequence of matches is. *)
Theorem format_empty_iff (formatter : IFormatter) (matches : list span)
    (file_name : str) (line_number : Z) (line : str) :
  format_string formatter matches file_name line_number line = []
  <-> matches = [].
Proof.
  split.
  - destruct matches as [|m rest]; [reflexivity|]. intros H. exfalso.
    assert (Hne : m :: rest <> []) by discriminate.
    destruct formatter; cbn [format_string] in H.
    + apply (f_equal (@length ascii)) in H. cbn in H.
      rewrite length_app in H. cbn in H. lia.
    + rewrite color_layout in H by assumption.
      apply (f_equal (@length ascii)) in H.
      rewrite length_app in H. cbn in H. lia.
    + destruct m as [s e]. apply (f_equal (@length ascii)) in H. cbn in H.
      rewrite length_app in H. cbn in H. lia.
    + rewrite underline_layout in H by assumption.
      apply (f_equal (@length ascii)) in H.
      rewrite !length_app in H. cbn in H. lia.
  - intros ->. destruct formatter; reflexivity.
Qed.

Lemma strip_color_format (matches : list span) (file_name : str)
    (line_number : Z) (line : str) :
  matches <> [] ->
  ordered 0 matches = true ->
  occurs ColorFormatter.ansi_red line = false ->
  occurs ColorFormatter.ansi_reset line = false ->
  occurs ColorFormatter.ansi_red file_name = false ->
  occurs ColorFormatter.ansi_reset file_name = false ->
  strip_color (ColorFormatter.format_string matches file_name line_number line)
  = file_name ++ [space] ++ str_of_int line_number ++ [space] ++ line.
Proof.
  intros Hne Hord Hred Hreset Hfred Hfreset.
  rewrite color_layout by assumption.
  unfold ColorFormatter.colored. rewrite color_loop. cbn [app].
  rewrite strip_color_keeps by (assumption || apply breaks_space).
  rewrite strip_color_space.
  rewrite strip_color_keeps;
    try (apply occurs_without_escape, str_of_int_no_escape);
    try apply breaks_space.
  rewrite strip_color_space.
  now rewrite (strip_colored_from line matches Hred Hreset 0 Hord).
Qed.

(** X2: the colour format is the standard format with colours: when
    neither the line nor the file name holds a control sequence and the
    matches are in order, removing the control sequences from what the
    colour formatter returns gives what the standard formatter returns. *)
Theorem color_is_standard_colored (matches : list span) (file_name : str)
    (line_number : Z) (line : str) :
  ordered 0 matches = true ->
  occurs ColorFormatter.ansi_red line = false ->
  occurs ColorFormatter.ansi_reset line = false ->
  occurs ColorFormatter.ansi_red file_name = false ->
  occurs ColorFormatter.ansi_reset file_name = false ->
  strip_color (ColorFormatter.format_string matches file_name line_number line)
  = StandardFormatter.format_string matches file_name line_number line.
Proof.
  intros Hord Hred Hreset Hfred Hfreset.
  destruct matches as [|m rest]; [reflexivity|].
  now rewrite strip_color_format by (assumption || discriminate).
Qed.

Lemma color_is_standard_colored_witness :
  strip_color
    (ColorFormatter.format_string [(1, 3); (4, 5)] (lit "a.txt") 12
       (lit "foobar" ++ [newline]))
  = StandardFormatter.format_string [(1, 3); (4, 5)] (lit "a.txt") 12
      (lit "foobar" ++ [newline]).
Proof.
  apply (color_is_standard_colored [(1, 3); (4, 5)] (lit "a.txt") 12
           (lit "foobar" ++ [newline])); reflexivity.
Defined.

(** X3: what the underline formatter returns starts with what the
    standard formatter returns for the same matches. *)
Theorem underline_starts_with_standard (matches : list span) (file_name : str)
    (line_number : Z) (line : str) :
  startswith (StandardFormatter.format_string matches file_name line_number line)
    (UnderlineFormatter.format_string matches file_name line_number line)
  = true.
Proof.
  destruct matches as [|m rest]; [reflexivity|].
  rewrite underline_layout by discriminate.
  change (StandardFormatter.format_string (m :: rest) file_name line_number line)
    with (file_name ++ [space] ++ str_of_int line_number ++ [space] ++ line).
  apply startswith_app.
Qed.

Lemma colored_length_from (line : str) (matches : list span) :
  forall start,
    ordered start matches = true ->
    length (pieces (color_piece line) start matches
              ++ slice_from line (last_end start matches))
    = length (slice_from line start)
      + length (ColorFormatter.ansi_red ++ ColorFormatter.ansi_reset)
        * length matches.
Proof.
  induction matches as [|[s e] rest IH]; intros start Hord.
  - cbn [pieces last_end app length]. lia.
  - simpl in Hord. apply andb_prop in Hord as [Hord Hrest].
    apply andb_prop in Hord as [Hs He]. apply Nat.leb_le in Hs, He.
    cbn [pieces last_end snd length]. unfold color_piece at 1. cbn [fst snd].
    rewrite <- !app_assoc, !length_app, <- length_app, (IH e Hrest).
    rewrite <- (slice_from_split line start s Hs),
      <- (slice_from_split line s e He), !length_app.
    cbn [length]. lia.
Qed.

(** X4: for matches in order the colour formatter adds to the line the
    file name, the line number, two spaces and, for every match, the two
    control sequences: nothing of the line is lost or repeated. *)
Theorem color_length (matches : list span) (file_name : str)
    (line_number : Z) (line : str) :
  matches <> [] ->
  ordered 0 matches = true ->
  length (ColorFormatter.format_string matches file_name line_number line)
  = length file_name + 1 + length (str_of_int line_number) + 1 + length line
    + length (ColorFormatter.ansi_red ++ ColorFormatter.ansi_reset)
      * length matches.
Proof.
  intros Hne Hord. rewrite color_layout by assumption.
  unfold ColorFormatter.colored. rewrite color_loop.
  pose proof (colored_length_from line matches 0 Hord) as Hlen.
  remember (length (ColorFormatter.ansi_red ++ ColorFormatter.ansi_reset)) as n.
  rewrite !length_app in *. cbn [length slice_from skipn] in *. lia.
Qed.

Lemma color_length_witness :
  length
    (ColorFormatter.format_string [(0, 0); (1, 3)] (lit "STDIN") 1 (lit "foo"))
  = 5 + 1 + 1 + 1 + 3 + 9 * 2.
Proof.
  apply (color_length [(0, 0); (1, 3)] (lit "STDIN") 1 (lit "foo"));
    (discriminate || reflexivity).
Defined.

Lemma count_caret_spaces (n : nat) :
  count_occ ascii_dec (spaces n) UnderlineFormatter.ansi_caret = 0.
Proof.
  induction n as [|n IH]; [reflexivity|].
  cbn [spaces repeat]. rewrite count_occ_cons_neq by discriminate. exact IH.
Qed.

Lemma underline_pieces_carets (line : str) (matches : list span) :
  forall start,
    count_occ ascii_dec (pieces (underline_piece line) start matches)
      UnderlineFormatter.ansi_caret
    = length matches
    /\ Forall (fun c => c = UnderlineFormatter.ansi_caret \/ c = space)
         (pieces (underline_piece line) start matches).
Proof.
  induction matches as [|m rest IH]; intros start.
  - split; [reflexivity|constructor].
  - destruct (IH (snd m)) as [Hcount Hall]. cbn [pieces length].
    unfold underline_piece at 1 3. split.
    + rewrite !count_occ_app, !count_caret_spaces, Hcount.
      cbn [count_occ]. now destruct (ascii_dec _ _).
    + repeat (apply Forall_app; split); try assumption;
        try (apply Forall_forall; intros c Hc; apply repeat_spec in Hc; now right).
      repeat constructor.
Qed.

(** X5: whatever the matches, the caret row holds one caret for each of
    them and nothing else but spaces. *)
Theorem caret_row_one_caret_per_match (matches : list span) (line : str) :
  count_occ ascii_dec (UnderlineFormatter.caret_row matches line)
    UnderlineFormatter.ansi_caret
  = length matches
  /\ Forall (fun c => c = UnderlineFormatter.ansi_caret \/ c = space)
       (UnderlineFormatter.caret_row matches line).
Proof.
  rewrite caret_row_pieces.
  destruct (underline_pieces_carets line matches 0) as [Hcount Hall]. split.
  - now rewrite count_occ_app, count_caret_spaces, Hcount, Nat.add_0_r.
  - apply Forall_app. split; [exact Hall|].
    apply Forall_forall. intros c Hc. apply repeat_spec in Hc. now right.
Qed.

Lemma caret_row_length_from (line : str) (matches : list span) :
  forall start,
    ordered start matches = true ->
    within (length line) matches = true ->
    start <= length line ->
    length (pieces (underline_piece line) start matches
              ++ spaces (length (slice_from line (last_end start matches))))
    = length line - start + empty_matches matches.
Proof.
  induction matches as [|[s e] rest IH]; intros start Hord Hin Hstart.
  - cbn [pieces last_end app empty_matches filter length].
    unfold spaces, slice_from. rewrite repeat_length, length_skipn. lia.
  - simpl in Hord, Hin.
    apply andb_prop in Hord as [Hord Hrest]. apply andb_prop in Hord as [Hs Hse].
    apply andb_prop in Hin as [He Hin]. apply Nat.leb_le in Hs, Hse, He.
    cbn [pieces last_end snd]. rewrite <- app_assoc, length_app, (IH e Hrest Hin He).
    unfold underline_piece. cbn [fst snd].
    rewrite !length_app, but_last_length, !slice_length by lia.
    unfold spaces. rewrite !repeat_length. cbn [length].
    unfold empty_matches. cbn [filter fst snd].
    destruct (s =? e) eqn:E; cbn [length].
    + apply Nat.eqb_eq in E. lia.
    + apply Nat.eqb_neq in E. lia.
Qed.

(** X6: for matches in order and inside the line, the caret row is longer
    than the line by the number of empty matches: a match that is not empty
    takes as many columns as it has characters, an empty one takes one. *)
Theorem caret_row_length (matches : list span) (line : str) :
  ordered 0 matches = true ->
  within (length line) matches = true ->
  length (UnderlineFormatter.caret_row matches line)
  = length line + empty_matches matches.
Proof.
  intros Hord Hin. rewrite caret_row_pieces.
  rewrite (caret_row_length_from line matches 0 Hord Hin (Nat.le_0_l _)). lia.
Qed.

Lemma caret_row_length_witness :
  length (UnderlineFormatter.caret_row [(0, 0); (0, 2); (3, 3)] (lit "abc"))
  = 3 + 2.
Proof.
  apply (caret_row_length [(0, 0); (0, 2); (3, 3)] (lit "abc")); reflexivity.
Defined.

(** * Further properties of the factory and of the reader *)

(** X7: the factory gives each of the four style names its formatter,
    gives a formatter for these four names only, and raises [ValueError]
    for any other name and for a missing one. *)
Theorem get_formatter_names (format_style : option str) :
  (forall formatter,
     FormatterFactory.get_formatter (Some (style_name formatter)) = Ok formatter)
  /\ (forall formatter,
        FormatterFactory.get_formatter format_style = Ok formatter ->
        format_style = Some (style_name formatter))
  /\ ((forall formatter, format_style <> Some (style_name formatter)) ->
      exists msg,
        FormatterFactory.get_formatter format_style = Raise (ValueError msg)).
Proof.
  split; [intros []; reflexivity|].
  destruct format_style as [s|].
  - unfold FormatterFactory.get_formatter.
    destruct (str_eqb s FormatterFactory.STANDARD) eqn:E1;
      [apply str_eqb_eq in E1; subst s; split;
         [intros f [= <-]; reflexivity
         |intros H; now destruct (H Standard)]|].
    destruct (str_eqb s FormatterFactory.COLOR) eqn:E2;
      [apply str_eqb_eq in E2; subst s; split;
         [intros f [= <-]; reflexivity
         |intros H; now destruct (H Color)]|].
    destruct (str_eqb s FormatterFactory.MACHINE) eqn:E3;
      [apply str_eqb_eq in E3; subst s; split;
         [intros f [= <-]; reflexivity
         |intros H; now destruct (H Machine)]|].
    destruct (str_eqb s FormatterFactory.UNDERLINE) eqn:E4;
      [apply str_eqb_eq in E4; subst s; split;
         [intros f [= <-]; reflexivity
         |intros H; now destruct (H Underline)]|].
    split; [discriminate|]. intros _. eexists. reflexivity.
  - split; [discriminate|]. intros _. eexists. reflexivity.
Qed.

Lemma forallb_rev {A} (f : A -> bool) (l : list A) :
  forallb f (rev l) = forallb f l.
Proof.
  induction l as [|a l IH]; [reflexivity|].
  cbn [rev forallb]. rewrite forallb_app, IH. cbn. now rewrite andb_true_r, andb_comm.
Qed.

Lemma lstrip_split (s : str) :
  exists w, s = w ++ lstrip s /\ blank w = true.
Proof.
  induction s as [|c s (w & Hs & Hw)].
  - now exists [].
  - cbn [lstrip]. destruct (isspace c) eqn:E.
    + exists (c :: w). cbn. rewrite E. split; [now f_equal|exact Hw].
    + now exists [].
Qed.

Lemma lstrip_blank (w s : str) : blank w = true -> lstrip (w ++ s) = lstrip s.
Proof.
  induction w as [|c w IH]; intros Hw; [reflexivity|].
  cbn in Hw. apply andb_prop in Hw as [Hc Hw].
  cbn [app lstrip]. rewrite Hc. now apply IH.
Qed.

Lemma rstrip_split (s : str) :
  exists w, s = rstrip s ++ w /\ blank w = true.
Proof.
  destruct (lstrip_split (rev s)) as (w & Hs & Hw).
  exists (rev w). split.
  - unfold rstrip. rewrite <- rev_app_distr, <- Hs. now rewrite rev_involutive.
  - unfold blank. now rewrite forallb_rev.
Qed.

Lemma rstrip_blank (s w : str) : blank w = true -> rstrip (s ++ w) = rstrip s.
Proof.
  intros Hw. unfold rstrip. rewrite rev_app_distr, lstrip_blank; [reflexivity|].
  unfold blank. now rewrite forallb_rev.
Qed.

(** X8: the reader of standard input stops at a line, keeping nothing of
    it, exactly when the line is [q] followed by nothing but whitespace;
    a line with anything before the [q] or between it and the end of the
    line is kept. *)
Theorem stdin_sentinel_lines (line : str) (rest : list str) :
  read_from_stdin (line :: rest) = []
  <-> exists w, line = lit "q" ++ w /\ blank w = true.
Proof.
  rewrite read_from_stdin_cons. split.
  - destruct (str_eqb (lit "q") (rstrip line)) eqn:E; [|discriminate].
    intros _. apply str_eqb_eq in E.
    destruct (rstrip_split line) as (w & Hline & Hw).
    exists w. split; [now rewrite E|exact Hw].
  - intros (w & -> & Hw). rewrite rstrip_blank by assumption. reflexivity.
Qed.

(** X9: what is read from standard input is the lines before the first
    line the reader stops at: a beginning of the input, without such a
    line in it, followed in the input by nothing or by such a line.
    Reading what was read changes nothing. *)
Theorem read_from_stdin_prefix (stdin : list str) :
  (exists rest,
     stdin = read_from_stdin stdin ++ rest
     /\ (rest = []
         \/ exists sentinel rest',
              rest = sentinel :: rest' /\ rstrip sentinel = lit "q"))
  /\ Forall (fun line => rstrip line <> lit "q") (read_from_stdin stdin)
  /\ read_from_stdin (read_from_stdin stdin) = read_from_stdin stdin.
Proof.
  assert (Hkept : Forall (fun line => rstrip line <> lit "q")
                    (read_from_stdin stdin)).
  { induction stdin as [|line rest IH]; [constructor|].
    rewrite read_from_stdin_cons.
    destruct (str_eqb (lit "q") (rstrip line)) eqn:E; [constructor|].
    constructor; [|exact IH]. intros Hq.
    assert (str_eqb (lit "q") (rstrip line) = true)
      by (now apply str_eqb_eq). congruence. }
  split; [|split; [exact Hkept|now apply read_from_stdin_all]].
  clear Hkept. induction stdin as [|line rest (tail & Hrest & Htail)].
  - exists []. split; [reflexivity|now left].
  - rewrite read_from_stdin_cons.
    destruct (str_eqb (lit "q") (rstrip line)) eqn:E.
    + exists (line :: rest). split; [reflexivity|]. right.
      exists line, rest. apply str_eqb_eq in E. now split.
    + exists tail. split; [|exact Htail]. cbn [app]. now f_equal.
Qed.

Lemma get_formatter_names_witness :
  exists msg,
    FormatterFactory.get_formatter (Some (lit "plain")) = Raise (ValueError msg).
Proof.
  apply (get_formatter_names (Some (lit "plain"))).
  intros []; discriminate.
Defined.

(** * Further properties of the runs *)

Section RunFurther.

Variable Pattern : Type.
Variable re_compile : str -> Pattern + str.
Variable finditer : Pattern -> str -> list span.
Variable fs : str -> option (list str).

Local Abbreviation scan := (PatternMatcher.scan Pattern finditer).
Local Abbreviation rendered := (PatternMatcher.rendered Pattern finditer).
Local Abbreviation _print_matches :=
  (PatternMatcher._print_matches Pattern re_compile finditer).
Local Abbreviation print_matches_from_files :=
  (PatternMatcher.print_matches_from_files Pattern re_compile finditer fs).
Local Abbreviation readable := (PatternMatcher.readable fs).
Local Abbreviation lines_of := (PatternMatcher.lines_of fs).
Local Abbreviation run := (main Pattern re_compile finditer fs).

Lemma rendered_no_match (pattern : Pattern) (formatter : IFormatter)
    (file_name : str) (lines : list str) :
  Forall (fun line => finditer pattern line = []) lines ->
  forall line_number, rendered pattern formatter file_name line_number lines = [].
Proof.
  induction 1 as [|line rest Hline _ IH]; intros line_number; [reflexivity|].
  cbn [PatternMatcher.rendered]. rewrite Hline, IH.
  destruct formatter; reflexivity.
Qed.

(** X10: when no line of the input matches, nothing is printed and the
    run ends with exit code 0. *)
Theorem no_match_prints_nothing (args : Namespace) (stdin : list str)
    (pattern : Pattern) :
  re_compile (regex args) = inl pattern ->
  files_open fs args ->
  Forall (fun line => finditer pattern line = []) (input_lines fs args stdin) ->
  stdout (fst (run args stdin)) = []
  /\ exit_code (snd (run args stdin)) = 0%Z.
Proof.
  intros Hc Hopen Hlines. rewrite main_dispatch.
  unfold files_open in Hopen. unfold input_lines in Hlines.
  destruct (files args) as [files_list|].
  - destruct (files_run Pattern re_compile finditer fs (regex args) pattern
                (formatter_of args) files_list Hc Hopen) as (Hok & Hout & _).
    rewrite Hok, Hout. split; [|reflexivity].
    clear Hok Hout Hopen. induction files_list as [|file_name rest IH];
      [reflexivity|].
    cbn [flat_map] in *. apply Forall_app in Hlines as [Hfile Hrest].
    now rewrite (rendered_no_match _ _ _ _ Hfile), IH.
  - rewrite (print_matches_compiled Pattern re_compile finditer _ pattern)
      by assumption.
    cbn [fst snd]. split; [|reflexivity].
    destruct (scan_run Pattern finditer pattern (formatter_of args)
                (lit "STDIN") (read_from_stdin stdin) 1) as (_ & Hout & _).
    change (Compile (regex args) :: ?t) with ([Compile (regex args)] ++ t).
    rewrite stdout_app, Hout. now rewrite rendered_no_match.
Qed.

(** X11: a line is printed under its number in the input, the lines
    without a match counted: after lines that do not match, the next line
    is formatted with the number of the first line plus their count. *)
Theorem line_number_counts_every_line (pattern : Pattern)
    (formatter : IFormatter) (file_name : str) (line_number : Z)
    (pre : list str) (line : str) (post : list str) :
  Forall (fun line => finditer pattern line = []) pre ->
  stdout (fst (scan pattern formatter file_name line_number
                 (pre ++ line :: post)))
  = format_string formatter (finditer pattern line) file_name
      (line_number + Z.of_nat (length pre)) line
      ++ stdout (fst (scan pattern formatter file_name
                        (line_number + Z.of_nat (length pre) + 1) post)).
Proof.
  intros Hpre.
  destruct (scan_run Pattern finditer pattern formatter file_name
              (pre ++ line :: post) line_number) as (_ & -> & _).
  destruct (scan_run Pattern finditer pattern formatter file_name post
              (line_number + Z.of_nat (length pre) + 1)) as (_ & -> & _).
  rewrite rendered_app, (rendered_no_match _ _ _ _ Hpre). reflexivity.
Qed.

(** X12: the lines are scanned in order and each on its own: the events
    of a scan of two lists of lines, one after the other, are the events
    of the scan of the first followed by those of the scan of the second,
    numbered on from the first. *)
Theorem scan_app (pattern : Pattern) (formatter : IFormatter)
    (file_name : str) (a b : list str) :
  forall line_number,
    scan pattern formatter file_name line_number (a ++ b)
    = (fst (scan pattern formatter file_name line_number a)
         ++ fst (scan pattern formatter file_name
                   (line_number + Z.of_nat (length a)) b),
       Ok tt).
Proof.
  induction a as [|line rest IH]; intros line_number.
  - cbn [app length PatternMatcher.scan ret fst]. rewrite Z.add_0_r.
    destruct (scan_run Pattern finditer pattern formatter file_name b
                line_number) as (Hok & _).
    rewrite <- Hok. apply surjective_pairing.
  - cbn [app PatternMatcher.scan length].
    set (step := if nonempty _ then _ else _).
    assert (Hstep : snd step = Ok tt) by (subst step; now destruct (nonempty _)).
    rewrite !(bind_ok _ _ tt Hstep), IH. cbn [fst snd].
    rewrite <- app_assoc. do 3 f_equal.
    replace (line_number + 1 + Z.of_nat (length rest))%Z
      with (line_number + Z.of_nat (S (length rest)))%Z by lia.
    reflexivity.
Qed.

Lemma files_app (regex : str) (pattern : Pattern) (formatter : IFormatter)
    (a b : list str) :
  re_compile regex = inl pattern ->
  readable a ->
  print_matches_from_files regex formatter (a ++ b)
  = (fst (print_matches_from_files regex formatter a)
       ++ fst (print_matches_from_files regex formatter b),
     snd (print_matches_from_files regex formatter b)).
Proof.
  intros Hc Ha. induction Ha as [|file_name rest Hfile _ IH].
  - cbn [app PatternMatcher.print_matches_from_files ret fst].
    apply surjective_pairing.
  - cbn [app PatternMatcher.print_matches_from_files].
    destruct (fs file_name) as [f|]; [|congruence].
    rewrite (print_matches_compiled Pattern re_compile finditer _ pattern)
      by assumption.
    rewrite !(bind_ok _ _ tt) by reflexivity. rewrite IH. cbn [fst snd].
    now rewrite <- app_assoc.
Qed.

(** X13: the files are processed in the order they are named, each one
    completely before the next: when the files of a first list can be
    opened, a run on that list followed by a second one does what the run
    on the first does and then what the run on the second does. *)
Theorem files_in_order (regex : str) (pattern : Pattern)
    (formatter : IFormatter) (a b : list str) :
  re_compile regex = inl pattern ->
  readable a ->
  print_matches_from_files regex formatter (a ++ b)
  = (fst (print_matches_from_files regex formatter a)
       ++ fst (print_matches_from_files regex formatter b),
     snd (print_matches_from_files regex formatter b))
  /\ stdout (fst (print_matches_from_files regex formatter (a ++ b)))
     = flat_map (fun file_name =>
                   rendered pattern formatter file_name 1 (lines_of file_name)) a
         ++ stdout (fst (print_matches_from_files regex formatter b)).
Proof.
  intros Hc Ha. rewrite (files_app _ pattern) by assumption.
  split; [reflexivity|]. cbn [fst]. rewrite stdout_app.
  now destruct (files_run Pattern re_compile finditer fs regex pattern
                  formatter a Hc Ha) as (_ & -> & _).
Qed.

(** X14: a file that cannot be opened ends the run with the error of
    [open] and exit code 1: what the files before it gave has been
    printed, the files after it are not read. *)
Theorem missing_file_ends_run (args : Namespace) (stdin : list str)
    (pattern : Pattern) (before : list str) (missing : str)
    (after : list str) :
  files args = Some (before ++ missing :: after) ->
  re_compile (regex args) = inl pattern ->
  readable before ->
  fs missing = None ->
  snd (run args stdin) = Raise (OSError missing)
  /\ exit_code (snd (run args stdin)) = 1%Z
  /\ stdout (fst (run args stdin))
     = flat_map (fun file_name =>
                   rendered pattern (formatter_of args) file_name 1
                     (lines_of file_name))
         before
  /\ compiles (fst (run args stdin)) = repeat (regex args) (length before).
Proof.
  intros Hfiles Hc Hbefore Hmissing.
  rewrite main_dispatch, Hfiles, (files_app _ pattern) by assumption.
  cbn [PatternMatcher.print_matches_from_files]. rewrite Hmissing.
  rewrite (bind_raise _ _ (OSError missing)) by reflexivity.
  cbn [fst snd raise]. rewrite app_nil_r.
  destruct (files_run Pattern re_compile finditer fs (regex args) pattern
              (formatter_of args) before Hc Hbefore) as (_ & Hout & Hcomp).
  now repeat split.
Qed.

(** X15: the first file is opened before the pattern is compiled: when it
    cannot be opened the run ends with the error of [open], whatever the
    pattern, without a call of [re.compile] and without output. *)
Theorem first_file_before_pattern (args : Namespace) (stdin : list str)
    (file_name : str) (rest : list str) :
  files args = Some (file_name :: rest) ->
  fs file_name = None ->
  run args stdin = ([], Raise (OSError file_name)).
Proof.
  intros Hfiles Hfile. rewrite main_dispatch, Hfiles.
  cbn [PatternMatcher.print_matches_from_files]. rewrite Hfile.
  now rewrite (bind_raise _ _ (OSError file_name)) by reflexivity.
Qed.

(** X16: from a parsed command line, the style name [main] builds from
    the flags is always one the factory knows, so that the call of the
    factory in [main] gives a formatter: the colour one when [color] is
    set, else the machine one when [machine] is, else the underline one
    when [underline] is, else the standard one.  [main] runs the matcher
    with it on the named files, if any, and otherwise on the lines read
    from standard input, under the name [STDIN]. *)
Theorem main_runs_chosen_formatter (args : Namespace) (stdin : list str) :
  FormatterFactory.get_formatter (Some (format_style_of args))
  = Ok (if color args then Color
        else if machine args then Machine
        else if underline args then Underline
        else Standard)
  /\ run args stdin
     = match files args with
       | Some files_list =>
           print_matches_from_files (regex args)
             (if color args then Color
              else if machine args then Machine
              else if underline args then Underline
              else Standard)
             files_list
       | None =>
           _print_matches (regex args)
             (if color args then Color
              else if machine args then Machine
              else if underline args then Underline
              else Standard)
             (read_from_stdin stdin) (lit "STDIN")
       end.
Proof.
  split; [apply get_formatter_of_style|apply main_dispatch].
Qed.

End RunFurther.

Lemma no_match_prints_nothing_witness :
  ToyRe.main
    {| regex := lit "xyz"; files := Some [lit "a.txt"; lit "b.txt"];
       underline := true; color := false; machine := false |} []
  = ([Compile (lit "xyz"); Compile (lit "xyz")], Ok tt)
  /\ stdout
       (fst (ToyRe.main
               {| regex := lit "xyz"; files := Some [lit "a.txt"; lit "b.txt"];
                  underline := true; color := false; machine := false |} []))
     = [].
Proof.
  split; [reflexivity|].
  apply (no_match_prints_nothing ToyRe.Pattern ToyRe.re_compile ToyRe.finditer
           ToyRe.fs
           {| regex := lit "xyz"; files := Some [lit "a.txt"; lit "b.txt"];
              underline := true; color := false; machine := false |} []
           (lit "xyz") eq_refl);
    repeat constructor; vm_compute; discriminate.
Defined.

Lemma line_number_counts_every_line_witness :
  stdout
    (fst (PatternMatcher.scan ToyRe.Pattern ToyRe.finditer (lit "foo") Machine
            (lit "a.txt") 1
            [lit "bar" ++ [newline]; lit "baz" ++ [newline];
             lit "a foo" ++ [newline]]))
  = lit "a.txt:3:2:foo" ++ [newline].
Proof.
  apply (line_number_counts_every_line ToyRe.Pattern ToyRe.finditer (lit "foo")
           Machine (lit "a.txt") 1
           [lit "bar" ++ [newline]; lit "baz" ++ [newline]]
           (lit "a foo" ++ [newline]) []).
  repeat constructor.
Defined.

Lemma files_in_order_witness :
  stdout
    (fst (PatternMatcher.print_matches_from_files ToyRe.Pattern ToyRe.re_compile
            ToyRe.finditer ToyRe.fs (lit "foo") Standard
            ([lit "b.txt"] ++ [lit "a.txt"])))
  = lit "b.txt 1 foofoo"
      ++ (lit "a.txt 1 foo" ++ [newline] ++ lit "a.txt 3 quux foo" ++ [newline]).
Proof.
  apply (files_in_order ToyRe.Pattern ToyRe.re_compile ToyRe.finditer ToyRe.fs
           (lit "foo") (lit "foo") Standard [lit "b.txt"] [lit "a.txt"] eq_refl).
  repeat constructor. vm_compute. discriminate.
Defined.

Lemma missing_file_ends_run_witness :
  snd (ToyRe.main
         {| regex := lit "foo"; files := Some [lit "a.txt"; lit "c.txt"; lit "b.txt"];
            underline := false; color := false; machine := true |} [])
  = Raise (OSError (lit "c.txt"))
  /\ stdout
       (fst (ToyRe.main
               {| regex := lit "foo";
                  files := Some [lit "a.txt"; lit "c.txt"; lit "b.txt"];
                  underline := false; color := false; machine := true |} []))
     = lit "a.txt:1:0:foo" ++ [newline] ++ lit "a.txt:3:5:foo" ++ [newline].
Proof.
  pose proof (missing_file_ends_run ToyRe.Pattern ToyRe.re_compile ToyRe.finditer
                ToyRe.fs
                {| regex := lit "foo";
                   files := Some [lit "a.txt"; lit "c.txt"; lit "b.txt"];
                   underline := false; color := false; machine := true |} []
                (lit "foo") [lit "a.txt"] (lit "c.txt") [lit "b.txt"]
                eq_refl eq_refl
                ltac:(repeat constructor; vm_compute; discriminate) eq_refl)
    as (Hraise & _ & Hout & _).
  split; [exact Hraise|exact Hout].
Defined.

Lemma first_file_before_pattern_witness :
  ToyRe.main
    {| regex := lit "("; files := Some [lit "c.txt"; lit "a.txt"];
       underline := false; color := false; machine := false |} []
  = ([], Raise (OSError (lit "c.txt"))).
Proof.
  apply (first_file_before_pattern ToyRe.Pattern ToyRe.re_compile ToyRe.finditer
           ToyRe.fs
           {| regex := lit "("; files := Some [lit "c.txt"; lit "a.txt"];
              underline := false; color := false; machine := false |} []
           (lit "c.txt") [lit "a.txt"]); reflexivity.
Defined.
